(** * obsidian-dataview: value rendering and the import worker entry point

    A shallow embedding of [src/ui/render.ts] and of
    [src/data-import/web-worker/import-entry.ts].

    - The DOM is a tree of text and element nodes; an [HTMLElement] handle is
      an [Element].  A nested element ([ul], [li], [span]) is created by
      [createEl], filled through its handle and attached to its parent; the
      source attaches it on creation, which gives the same tree whenever the
      call returns.
    - Arrays, objects and HTML elements that are values are JavaScript
      reference values: they live in a [Heap] of cells and a [Literal] holds
      their address, so shared and cyclic values exist in the model.  A tree
      holds an HTML element that is a value as a reference, [NHtml]; a node
      has one parent, so [appendChild] of such an element takes it out of
      the place it was in, and [attach] of a filled element takes out of the
      parent the references that went into the new child meanwhile.
    - [async]/[await] is sequential composition in a state-and-exception
      monad; the state carries the heap and a logical clock that every
      suspension of the markdown renderer advances.
    - [renderValue] recurses on values that may be cyclic, so its embedding
      takes fuel; [renderValue_ends] and [renderValue_fuel_irrelevant] show
      that [enoughFuel] is enough and that more changes nothing.  Each
      invocation returns, next to the container, the tree of the invocations
      made, with their arguments. *)

From Stdlib Require Import List Ascii String Bool Arith Lia.
Import ListNotations.
Open Scope string_scope.
Set Warnings "-register-all".

(** ** DOM *)

Inductive Node : Type :=
| NText (data : string)
| NElem (tagName : string) (classList : list string) (childNodes : list Node)
| NHtml (address : nat).

Record Element : Type := mkElement {
  tagName : string;
  classList : list string;
  childNodes : list Node
}.

Definition node_of (e : Element) : Node :=
  NElem (tagName e) (classList e) (childNodes e).

Definition isElementNode (n : Node) : bool :=
  match n with NText _ => false | NElem _ _ _ => true | NHtml _ => true end.

Definition isTextNode (n : Node) : bool := negb (isElementNode n).

(** [document.createElement] with Obsidian's [cls] option: a detached, empty
    element. *)
Definition createEl (tag : string) (cls : list string) : Element :=
  mkElement tag cls [].

Definition createSpan : Element := createEl "span" [].

(** [el.appendChild(n)] for a node [n] that is not in the tree of [el]. *)
Definition appendChild (el : Element) (n : Node) : Element :=
  mkElement (tagName el) (classList el) (childNodes el ++ [n]).

(** Obsidian's [el.appendText(s)]. *)
Definition appendText (el : Element) (s : string) : Element :=
  appendChild el (NText s).

(** [el.children]: the child nodes that are elements. *)
Definition children (el : Element) : list Node :=
  filter isElementNode (childNodes el).

(** A node below an element is named by the child indices leading to it. *)
Definition Path : Type := list nat.

(** [querySelector(sel)] over a list of sibling subtrees: the first element
    with tag [sel] in document (pre-)order, at any depth.  It is only ever
    asked of what the markdown renderer has just created, where no element
    that is a value occurs; a reference is passed over. *)
Fixpoint querySelectorNode (sel : string) (n : Node) : option Path :=
  match n with
  | NText _ => None
  | NHtml _ => None
  | NElem t _ kids =>
      if String.eqb t sel then Some []
      else
        (fix scan (ks : list Node) (i : nat) : option Path :=
           match ks with
           | [] => None
           | k :: ks' =>
               match querySelectorNode sel k with
               | Some p => Some (i :: p)
               | None => scan ks' (S i)
               end
           end) kids 0
  end.

Fixpoint querySelectorFrom (sel : string) (ks : list Node) (i : nat)
  : option Path :=
  match ks with
  | [] => None
  | k :: ks' =>
      match querySelectorNode sel k with
      | Some p => Some (i :: p)
      | None => querySelectorFrom sel ks' (S i)
      end
  end.

(** [el.querySelector(sel)]: descendants only, never [el] itself. *)
Definition querySelector (el : Element) (sel : string) : option Path :=
  querySelectorFrom sel (childNodes el) 0.

(** The child nodes of the node at a path ([[]] for a text node or a path
    that leads nowhere). *)
Fixpoint childNodesAt (ks : list Node) (p : Path) : list Node :=
  match p with
  | [] => ks
  | i :: p' =>
      match nth_error ks i with
      | Some (NElem _ _ kids) => childNodesAt kids p'
      | _ => []
      end
  end.

Fixpoint updateNth {A : Type} (f : A -> A) (i : nat) (l : list A) : list A :=
  match l, i with
  | [], _ => []
  | x :: l', 0 => f x :: l'
  | x :: l', S i' => x :: updateNth f i' l'
  end.

(** Empties the element at a non-empty path (all its child nodes have been
    moved away). *)
Fixpoint clearAt (ks : list Node) (p : Path) : list Node :=
  match p with
  | [] => ks
  | [i] =>
      updateNth (fun n => match n with
                          | NElem t c _ => NElem t c []
                          | NText s => NText s
                          | NHtml a => NHtml a
                          end) i ks
  | i :: p' =>
      updateNth (fun n => match n with
                          | NElem t c kids => NElem t c (clearAt kids p')
                          | NText s => NText s
                          | NHtml a => NHtml a
                          end) i ks
  end.

Fixpoint removeNth {A : Type} (i : nat) (l : list A) : list A :=
  match l, i with
  | [], _ => []
  | _ :: l', 0 => l'
  | x :: l', S i' => x :: removeNth i' l'
  end.

(** What render code can throw: the two DOM exceptions of [removeChild] and
    [appendChild], and the [TypeError] of [JSON.stringify]. *)
Inductive DOMException : Type :=
| NotFoundError
| HierarchyRequestError
| TypeError.

(** [el.removeChild(n)]: [n] must be a child of [el], otherwise the DOM
    raises [NotFoundError]. *)
Definition removeChild (el : Element) (p : Path) : DOMException + Element :=
  match p with
  | [i] =>
      if Nat.ltb i (List.length (childNodes el))
      then inr (mkElement (tagName el) (classList el)
                          (removeNth i (childNodes el)))
      else inl NotFoundError
  | _ => inl NotFoundError
  end.

(** *** Elements that are values

    The addresses of the elements that are values and sit in a tree, in
    document order (what is below such an element is in its heap cell, not in
    the tree). *)
Fixpoint refs (n : Node) : list nat :=
  match n with
  | NText _ => []
  | NHtml a => [a]
  | NElem _ _ kids =>
      (fix all (ks : list Node) : list nat :=
         match ks with
         | [] => []
         | k :: ks' => (refs k ++ all ks')%list
         end) kids
  end.

Fixpoint refsAll (ks : list Node) : list nat :=
  match ks with
  | [] => []
  | k :: ks' => (refs k ++ refsAll ks')%list
  end.

Definition moved (ids : list nat) (a : nat) : bool :=
  existsb (Nat.eqb a) ids.

(** A tree without the elements [ids], wherever they are in it. *)
Fixpoint detach (ids : list nat) (n : Node) : Node :=
  match n with
  | NElem t c kids =>
      NElem t c
        ((fix all (ks : list Node) : list Node :=
            match ks with
            | [] => []
            | NHtml a :: ks' =>
                if moved ids a then all ks' else NHtml a :: all ks'
            | k :: ks' => detach ids k :: all ks'
            end) kids)
  | _ => n
  end.

Fixpoint detachAll (ids : list nat) (ks : list Node) : list Node :=
  match ks with
  | [] => []
  | NHtml a :: ks' =>
      if moved ids a then detachAll ids ks' else NHtml a :: detachAll ids ks'
  | k :: ks' => detach ids k :: detachAll ids ks'
  end.

Definition detachEl (ids : list nat) (el : Element) : Element :=
  mkElement (tagName el) (classList el) (detachAll ids (childNodes el)).

(** [parent.createEl(...)] followed by the filling of the new element, with
    [child] the element as filled: [child] is the last child of [parent],
    and an element that is a value and went into [child] is no longer where
    it was below [parent]. *)
Definition attach (parent : Element) (child : Node) : Element :=
  match refs child with
  | [] => appendChild parent child
  | ids => appendChild (detachEl ids parent) child
  end.

(** [el.appendChild(n)] for the element that is a value at address [a] and
    is not an ancestor of [el]: it is the last child of [el], and nowhere
    else below [el]. *)
Definition appendChildHtml (el : Element) (a : nat) : Element :=
  appendChild (detachEl [a] el) (NHtml a).

(** ** Settings, host services and values *)

(** Modelled from the spec: the [QuerySettings] type of the [settings]
    module, of which the renderer reads [maxRecursiveRenderDepth] (an integer
    that is at least zero) and [renderNullAs] (markdown text). *)
Record QuerySettings : Type := mkSettings {
  maxRecursiveRenderDepth : nat;
  renderNullAs : string
}.

(** What the renderer imports and does not define: Obsidian's markdown
    renderer (the nodes it adds to the element it is given, and for how long
    the call stays suspended), the date and duration formatters, the locale,
    [Link.markdown()], the conversion of a number to a string and
    [JSON.stringify] (no result where it throws its [TypeError], as on a
    BigInt), together with the types they work on. *)
Class Host : Type := {
  DateTime : Type;
  Duration : Type;
  Link : Type;
  JSNumber : Type;
  Foreign : Type;
  Component : Type;
  Locale : Type;
  renderMarkdown : string -> string -> Component -> list Node;
  renderLatency : string -> nat;
  renderMinimalDate : DateTime -> QuerySettings -> Locale -> string;
  renderMinimalDuration : Duration -> string;
  currentLocale : Locale;
  link_markdown : Link -> string;
  number_toString : JSNumber -> string;
  JSON_stringify : Foreign -> option string
}.

Definition Addr : Type := nat.

Inductive ValueRenderContext : Type :=
| CtxRoot   (* "root" *)
| CtxList.  (* "list" *)

Definition boolean_toString (b : bool) : string :=
  if b then "true" else "false".

Section Render.
Context {host : Host}.

(** Modelled from the spec: the [Literal] type of [data-model/value], a
    tagged union with one case per predicate of [Values]; arrays, data
    arrays, objects and HTML elements are references into the heap, and
    [VForeign] is a value that no predicate recognises. *)
Inductive Literal : Type :=
| VNull
| VDate (d : DateTime)
| VDuration (d : Duration)
| VString (s : string)
| VBoolean (b : bool)
| VNumber (n : JSNumber)
| VLink (l : Link)
| VFunction
| VRef (a : Addr)
| VForeign (x : Foreign).

(** A heap cell: a native array, a [DataArray], an object with the name
    of its constructor (when it has one) and its own enumerable entries in
    the order of [Object.entries], or an HTML element ([Values.isHtml]).  Of
    an HTML element the cell has the element itself, the address of the
    HTML element of the heap in whose tree it sits (if it sits in one), and
    whether it is the container that the render is called with or an
    ancestor of it. *)
Inductive Cell : Type :=
| ArrayCell (elements : list Literal)
| DataArrayCell (elements : list Literal)
| ObjectCell (constructorName : option string)
             (entries : list (string * Literal))
| HtmlCell (element : Element) (home : option Addr) (holdsContainer : bool).

Definition Heap : Type := Addr -> Cell.

Definition storeCell (a : Addr) (c : Cell) (h : Heap) : Heap :=
  fun x => if Nat.eqb x a then c else h x.

(** The heap after the HTML element at [a] has left the tree of the HTML
    element at [w]. *)
Definition takeFrom (w a : Addr) (h : Heap) : Heap :=
  match h w with
  | HtmlCell element home holds =>
      storeCell w (HtmlCell (detachEl [a] element) home holds) h
  | _ => h
  end.

(** ** The monad of asynchronous render code *)

Record State : Type := mkState {
  heap : Heap;
  clock : nat
}.

Inductive Outcome (A : Type) : Type :=
| Done (a : A) (s : State)
| Thrown (e : DOMException) (s : State)
| OutOfFuel.
Arguments Done {A} a s.
Arguments Thrown {A} e s.
Arguments OutOfFuel {A}.

Definition M (A : Type) : Type := State -> Outcome A.

Definition ret {A : Type} (a : A) : M A := fun s => Done a s.

Definition bind {A B : Type} (m : M A) (k : A -> M B) : M B :=
  fun s =>
    match m s with
    | Done a s' => k a s'
    | Thrown e s' => Thrown e s'
    | OutOfFuel => OutOfFuel
    end.

Definition throw {A : Type} (e : DOMException) : M A := fun s => Thrown e s.

Definition outOfFuel {A : Type} : M A := fun _ => OutOfFuel.

Definition liftDOM {A : Type} (r : DOMException + A) : M A :=
  match r with
  | inl e => throw e
  | inr a => ret a
  end.

Definition readCell (a : Addr) : M Cell := fun s => Done (heap s a) s.

Definition suspend (ticks : nat) : M unit :=
  fun s => Done tt (mkState (heap s) (clock s + ticks)).

(** [container.appendChild(field)] for the HTML element at [a], whose cell
    is [HtmlCell element home holds].  The DOM refuses an element that is
    the container or contains it; otherwise the element leaves the place it
    is in, be it the tree of another HTML element of the heap or the
    container, and becomes the last child of the container. *)
Definition appendHtml (a : Addr) (element : Element) (home : option Addr)
    (holds : bool) (container : Element) : M Element :=
  fun s =>
    if holds then Thrown HierarchyRequestError s
    else
      let h := match home with
               | Some w => takeFrom w a (heap s)
               | None => heap s
               end in
      Done (appendChildHtml container a)
           (mkState (storeCell a (HtmlCell element None false) h) (clock s)).

Notation "x <- m ;; k" := (bind m (fun x => k))
  (at level 61, m at next level, right associativity).
Notation "' pat <- m ;; k" := (bind m (fun x => match x with pat => k end))
  (at level 61, pat pattern, m at next level, right associativity).

(** [for (let x of xs) body], the loop variables threaded as [acc]. *)
Fixpoint for_of {A S : Type} (xs : list A) (body : A -> S -> M S) (acc : S)
  : M S :=
  match xs with
  | [] => ret acc
  | x :: xs' => acc' <- body x acc ;; for_of xs' body acc'
  end.

(** ** renderCompactMarkdown *)

(** [await MarkdownRenderer.renderMarkdown(markdown, el, sourcePath,
    component)]: the call suspends, then the rendered nodes are in [el]. *)
Definition awaitRenderMarkdown (markdown : string) (el : Element)
    (sourcePath : string) (component : Component) : M Element :=
  _ <- suspend (renderLatency markdown) ;;
  ret (mkElement (tagName el) (classList el)
         (childNodes el ++ renderMarkdown markdown sourcePath component)).

(** [while (paragraph.firstChild)
      subcontainer.appendChild(paragraph.firstChild)]
    over the child nodes still in the paragraph. *)
Fixpoint moveChildren (pending : list Node) (subcontainer : Element)
  : Element :=
  match pending with
  | [] => subcontainer
  | firstChild :: rest =>
      moveChildren rest (appendChild subcontainer firstChild)
  end.

Definition unwrapParagraph (subcontainer : Element) (paragraph : Path)
  : Element :=
  let moved := childNodesAt (childNodes subcontainer) paragraph in
  moveChildren moved
    (mkElement (tagName subcontainer) (classList subcontainer)
       (clearAt (childNodes subcontainer) paragraph)).

(** The part of [renderCompactMarkdown] after the renderer has returned. *)
Definition stripParagraph (subcontainer : Element) : M Element :=
  match querySelector subcontainer "p" with
  | Some paragraph =>
      if Nat.eqb (List.length (children subcontainer)) 1
      then liftDOM (removeChild (unwrapParagraph subcontainer paragraph)
                                paragraph)
      else ret subcontainer
  | None => ret subcontainer
  end.

Definition renderCompactMarkdown (markdown : string) (container : Element)
    (sourcePath : string) (component : Component) : M Element :=
  let subcontainer := createSpan in
  subcontainer <- awaitRenderMarkdown markdown subcontainer sourcePath
                    component ;;
  subcontainer <- stripParagraph subcontainer ;;
  ret (appendChild container (node_of subcontainer)).

(** ** renderValue *)

(** The arguments of one invocation of [renderValue] that decide what it
    renders, and the tree of invocations a call gives rise to. *)
Record Invocation : Type := mkInvocation {
  inv_field : Literal;
  inv_expandList : bool;
  inv_context : ValueRenderContext;
  inv_depth : nat
}.

Inductive CallTree : Type :=
| Call (args : Invocation) (calls : list CallTree).

Definition call_args (t : CallTree) : Invocation :=
  match t with Call a _ => a end.

Definition call_calls (t : CallTree) : list CallTree :=
  match t with Call _ cs => cs end.

(** [field?.constructor?.name && field?.constructor?.name != "Object"] *)
Definition isClassInstance (constructorName : option string) : bool :=
  match constructorName with
  | Some name => negb (String.eqb name "") && negb (String.eqb name "Object")
  | None => false
  end.

Definition constructor_name (constructorName : option string) : string :=
  match constructorName with Some name => name | None => "" end.

Definition Rendered : Type := (Element * list CallTree)%type.

Section Dispatch.

(** The recursive call [await renderValue(v, el, originFile, component,
    settings, expandList, ctx, d)]. *)
Variable self : Literal -> Element -> bool -> ValueRenderContext -> nat ->
                M (Element * CallTree).

Variables (originFile : string) (component : Component)
          (settings : QuerySettings).

(** Lines 138-164: arrays and data arrays. *)
Definition renderArray (elements : list Literal) (container : Element)
    (expandList : bool) (context : ValueRenderContext) (depth : nat)
  : M Rendered :=
  if expandList then
    let list := createEl "ul"
                  ["dataview"; "dataview-ul";
                   match context with
                   | CtxList => "dataview-result-list-ul"
                   | CtxRoot => "dataview-result-list-root-ul"
                   end] in
    '(list, calls) <-
      for_of elements
        (fun child '(list, calls) =>
           let li := createEl "li" ["dataview-result-list-li"] in
           '(li, call) <- self child li expandList CtxList (depth + 1) ;;
           ret (attach list (node_of li), (calls ++ [call])%list))
        (list, []) ;;
    ret (attach container (node_of list), calls)
  else
    if Nat.eqb (List.length elements) 0 then
      ret (appendText container "<empty list>", [])
    else
      let span := createEl "span" ["dataview"; "dataview-result-list-span"] in
      '(span, _, calls) <-
        for_of elements
          (fun val '(span, first, calls) =>
             let span := if (first : bool) then span
                         else appendText span ", " in
             '(span, call) <- self val span expandList CtxList (depth + 1) ;;
             ret (span, false, (calls ++ [call])%list))
          (span, true, []) ;;
      ret (attach container (node_of span), calls).

(** Lines 166-194: objects. *)
Definition renderObject (constructorName : option string)
    (entries : list (string * Literal)) (container : Element)
    (expandList : bool) (depth : nat) : M Rendered :=
  if isClassInstance constructorName then
    ret (appendText container
           ("<" ++ constructor_name constructorName ++ ">"), [])
  else if expandList then
    let list := createEl "ul"
                  ["dataview"; "dataview-ul"; "dataview-result-object-ul"] in
    '(list, calls) <-
      for_of entries
        (fun '(key, value) '(list, calls) =>
           let li := createEl "li"
                       ["dataview"; "dataview-li";
                        "dataview-result-object-li"] in
           let li := appendText li (key ++ ": ") in
           '(li, call) <- self value li expandList CtxList (depth + 1) ;;
           ret (attach list (node_of li), (calls ++ [call])%list))
        (list, []) ;;
    ret (attach container (node_of list), calls)
  else
    if Nat.eqb (List.length entries) 0 then
      ret (appendText container "<empty object>", [])
    else
      let span := createEl "span"
                    ["dataview"; "dataview-result-object-span"] in
      '(span, _, calls) <-
        for_of entries
          (fun '(key, value) '(span, first, calls) =>
             let span := if (first : bool) then span
                         else appendText span ", " in
             let span := appendText span (key ++ ": ") in
             '(span, call) <- self value span expandList CtxList
                                (depth + 1) ;;
             ret (span, false, (calls ++ [call])%list))
          (span, true, []) ;;
      ret (attach container (node_of span), calls).

Definition leaf (m : M Element) : M Rendered :=
  container <- m ;; ret (container, []).

(** Lines 123-197: the dispatch on the kind of value. *)
Definition dispatch (field : Literal) (container : Element)
    (expandList : bool) (context : ValueRenderContext) (depth : nat)
  : M Rendered :=
  match field with
  | VNull =>
      leaf (renderCompactMarkdown (renderNullAs settings) container
              originFile component)
  | VDate d =>
      ret (appendText container (renderMinimalDate d settings currentLocale),
           [])
  | VDuration d =>
      ret (appendText container (renderMinimalDuration d), [])
  | VString s =>
      leaf (renderCompactMarkdown ("" ++ s) container originFile component)
  | VBoolean b =>
      leaf (renderCompactMarkdown ("" ++ boolean_toString b) container
              originFile component)
  | VNumber n =>
      leaf (renderCompactMarkdown ("" ++ number_toString n) container
              originFile component)
  | VLink l =>
      leaf (renderCompactMarkdown (link_markdown l) container originFile
              component)
  | VFunction => ret (appendText container "<function>", [])
  | VRef a =>
      cell <- readCell a ;;
      match cell with
      | ArrayCell elements | DataArrayCell elements =>
          renderArray elements container expandList context depth
      | ObjectCell constructorName entries =>
          renderObject constructorName entries container expandList depth
      | HtmlCell element home holds =>
          leaf (appendHtml a element home holds container)
      end
  | VForeign x =>
      match JSON_stringify x with
      | Some dump =>
          ret (appendText container ("Unrecognized: " ++ dump), [])
      | None => throw TypeError
      end
  end.

(** The body of [renderValue]: the depth guard, then the dispatch. *)
Definition renderValue_body (field : Literal) (container : Element)
    (expandList : bool) (context : ValueRenderContext) (depth : nat)
  : M Rendered :=
  if Nat.ltb (maxRecursiveRenderDepth settings) depth then
    ret (appendText container "...", [])
  else dispatch field container expandList context depth.

End Dispatch.

(** [renderValue], with [fuel] bounding the nesting of invocations; each
    invocation reports itself and the invocations it made. *)
Fixpoint renderValue (fuel : nat) (field : Literal) (container : Element)
    (originFile : string) (component : Component) (settings : QuerySettings)
    (expandList : bool) (context : ValueRenderContext) (depth : nat)
  : M (Element * CallTree) :=
  match fuel with
  | 0 => outOfFuel
  | S fuel' =>
      '(container, calls) <-
        renderValue_body
          (fun v el e c d =>
             renderValue fuel' v el originFile component settings e c d)
          originFile component settings
          field container expandList context depth ;;
      ret (container,
           Call (mkInvocation field expandList context depth) calls)
  end.

(** Fuel that is enough for a call at [depth]: invocations nest at most up
    to depth [maxRecursiveRenderDepth + 1]. *)
Definition enoughFuel (settings : QuerySettings) (depth : nat) : nat :=
  S (S (maxRecursiveRenderDepth settings) - depth).

End Render.

Arguments Done {host A} a s.
Arguments Thrown {host A} e s.
Arguments OutOfFuel {host A}.

(** [renderValue(field, container, originFile, component, settings)] with the
    defaults of the source: [expandList = false], [context = "root"],
    [depth = 0]. *)
Definition renderValueDefault {host : Host} (field : Literal)
    (container : Element) (originFile : string) (component : Component)
    (settings : QuerySettings) : M (Element * CallTree) :=
  renderValue (enoughFuel settings 0) field container originFile component
    settings false CtxRoot 0.

(** ** renderList, renderTable and renderCodeBlock *)

(** Obsidian's [createEl(tag, { text, cls })]: the text becomes the text
    content of the new element, so an empty text leaves it without a child
    node. *)
Definition createElText (tag : string) (cls : list string) (text : string)
  : Element :=
  mkElement tag cls (if String.eqb text "" then [] else [NText text]).

Section Views.
Context {host : Host}.

Local Notation "x <- m ;; k" := (bind m (fun x => k))
  (at level 61, m at next level, right associativity).
Local Notation "' pat <- m ;; k" :=
  (bind m (fun x => match x with pat => k end))
  (at level 61, pat pattern, m at next level, right associativity).

(** Lines 41-53.  Each element is rendered by a top-level call of
    [renderValue] (depth 0) with [expandList = true] and context ["list"];
    next to the container, the call trees of the elements. *)
Definition renderList (container : Element) (elements : list Literal)
    (component : Component) (originFile : string) (settings : QuerySettings)
  : M (Element * list CallTree) :=
  let listEl := createEl "ul" ["dataview"; "list-view-ul"] in
  '(listEl, calls) <-
    for_of elements
      (fun elem '(listEl, calls) =>
         let li := createEl "li" [] in
         '(li, call) <-
           renderValue (enoughFuel settings 0) elem li originFile component
             settings true CtxList 0 ;;
         ret (attach listEl (node_of li), (calls ++ [call])%list))
      (listEl, []) ;;
  ret (attach container (node_of listEl), calls).

(** Lines 56-80.  The header cells are made first; then each value is
    rendered into its [td] by a top-level call of [renderValue] with
    [expandList = true] and the default context ["root"]; next to the
    container, the call trees of the cells, row by row. *)
Definition renderTable (container : Element) (headers : list string)
    (values : list (list Literal)) (component : Component)
    (originFile : string) (settings : QuerySettings)
  : M (Element * list (list CallTree)) :=
  let tableEl := createEl "table" ["dataview"; "table-view-table"] in
  let theadEl := createEl "thead" ["table-view-thead"] in
  let headerEl := createEl "tr" ["table-view-tr-header"] in
  let headerEl :=
    fold_left
      (fun headerEl header =>
         appendChild headerEl
           (node_of (createElText "th" ["table-view-th"] header)))
      headers headerEl in
  let tbodyEl := createEl "tbody" ["table-view-tbody"] in
  '(tbodyEl, calls) <-
    for_of values
      (fun row '(tbodyEl, calls) =>
         let rowEl := createEl "tr" [] in
         '(rowEl, rowCalls) <-
           for_of row
             (fun value '(rowEl, rowCalls) =>
                let td := createEl "td" [] in
                '(td, call) <-
                  renderValue (enoughFuel settings 0) value td originFile
                    component settings true CtxRoot 0 ;;
                ret (attach rowEl (node_of td),
                     (rowCalls ++ [call])%list))
             (rowEl, []) ;;
         ret (attach tbodyEl (node_of rowEl),
              (calls ++ [rowCalls])%list))
      (tbodyEl, []) ;;
  let theadEl := appendChild theadEl (node_of headerEl) in
  let tableEl :=
    attach (appendChild tableEl (node_of theadEl)) (node_of tbodyEl) in
  ret (attach container (node_of tableEl), calls).

End Views.

(** The errors of [DOMTokenList.add]. *)
Inductive TokenError : Type :=
| SyntaxError
| InvalidCharacterError.

(** ASCII whitespace: tab, line feed, form feed, carriage return, space. *)
Definition isAsciiWhitespace (c : ascii) : bool :=
  match nat_of_ascii c with
  | 9 | 10 | 12 | 13 | 32 => true
  | _ => false
  end.

Fixpoint hasAsciiWhitespace (s : string) : bool :=
  match s with
  | EmptyString => false
  | String c s' => isAsciiWhitespace c || hasAsciiWhitespace s'
  end.

(** [el.classList.add(token)]: an empty token and a token with whitespace
    are refused; a token that is there already is not added again. *)
Definition classList_add (el : Element) (token : string)
  : TokenError + Element :=
  if String.eqb token "" then inl SyntaxError
  else if hasAsciiWhitespace token then inl InvalidCharacterError
  else inr (mkElement (tagName el)
              (if existsb (String.eqb token) (classList el)
               then classList el
               else classList el ++ [token])
              (childNodes el)).

(** [if (language)]: the language is given and not the empty string. *)
Definition truthy (language : option string) : bool :=
  match language with
  | Some l => negb (String.eqb l "")
  | None => false
  end.

(** Lines 90-95; the container and the [code] element that is returned. *)
Definition renderCodeBlock (container : Element) (source : string)
    (language : option string) : TokenError + (Element * Element) :=
  let code := createEl "code" ["dataview"] in
  match (if truthy language
         then classList_add code
                ("language-" ++ match language with
                                | Some l => l
                                | None => "undefined"
                                end)
         else inr code) with
  | inl e => inl e
  | inr code =>
      let code := appendText code source in
      inr (appendChild container (node_of code), code)
  end.

(** Lines 83-87 and 98-102; the container and the element that is
    returned. *)
Definition renderErrorPre (container : Element) (error : string)
  : Element * Element :=
  let pre := createEl "pre" ["dataview"; "dataview-error"] in
  let pre := appendText pre error in
  (appendChild container (node_of pre), pre).

Definition renderErrorSpan (container : Element) (error : string)
  : Element * Element :=
  let pre := createEl "span" ["dataview"; "dataview-error"] in
  let pre := appendText pre error in
  (appendChild container (node_of pre), pre).

(** ** Observations on a call *)

(** [el] with [nodes] added after its child nodes. *)
Definition appendNodes (el : Element) (nodes : list Node) : Element :=
  mkElement (tagName el) (classList el) (childNodes el ++ nodes).

(** Every invocation below the root of a call tree was made with context
    ["list"], the [expandList] of its caller and the depth of its caller plus
    one. *)
Fixpoint wellNested {host : Host} (t : CallTree) : bool :=
  match t with
  | Call args calls =>
      (fix all (cs : list CallTree) : bool :=
         match cs with
         | [] => true
         | c :: cs' =>
             match inv_context (call_args c) with
             | CtxList => true
             | CtxRoot => false
             end
             && Nat.eqb (inv_depth (call_args c)) (inv_depth args + 1)
             && Bool.eqb (inv_expandList (call_args c)) (inv_expandList args)
             && wellNested c
             && all cs'
         end) calls
  end.

(** The largest depth argument of an invocation in a call tree. *)
Fixpoint deepest {host : Host} (t : CallTree) : nat :=
  match t with
  | Call args calls =>
      (fix most (cs : list CallTree) : nat :=
         match cs with
         | [] => inv_depth args
         | c :: cs' => Nat.max (deepest c) (most cs')
         end) calls
  end.

(** The nodes of the siblings of an inline list, [sep] between them. *)
Definition sepNodes (sep : Node) (outs : list (list Node)) : list Node :=
  flat_map (fun out => sep :: out) outs.

Definition joinNodes (sep : Node) (outs : list (list Node)) : list Node :=
  match outs with
  | [] => []
  | out :: outs' => out ++ sepNodes sep outs'
  end.

(** [siblings fuel ... vs s outs ts s']: the values [vs] are rendered one
    after the other, each call starting in the state in which the call
    before it returned, from [s] to [s']; [outs] are the nodes each call
    adds to the element it is given, whichever that is, and [ts] the call
    trees. *)
Inductive siblings {host : Host} (fuel : nat) (originFile : string)
    (component : Component) (settings : QuerySettings) (expandList : bool)
    (depth : nat)
  : list Literal -> State -> list (list Node) -> list CallTree -> State ->
    Prop :=
| siblings_nil s :
    siblings fuel originFile component settings expandList depth
      [] s [] [] s
| siblings_cons v vs s out t s1 outs ts s2 :
    (forall el,
        renderValue fuel v el originFile component settings expandList
          CtxList depth s = Done (appendNodes el out, t) s1) ->
    siblings fuel originFile component settings expandList depth
      vs s1 outs ts s2 ->
    siblings fuel originFile component settings expandList depth
      (v :: vs) s (out :: outs) (t :: ts) s2.

(** [siblingsThrow fuel ... vs s e s']: the values [vs] are rendered one
    after the other from [s] until the render of one of them throws [e], in
    state [s']; the values after that one are not rendered. *)
Inductive siblingsThrow {host : Host} (fuel : nat) (originFile : string)
    (component : Component) (settings : QuerySettings) (expandList : bool)
    (depth : nat)
  : list Literal -> State -> DOMException -> State -> Prop :=
| siblingsThrow_here v vs s e s' :
    (forall el,
        renderValue fuel v el originFile component settings expandList
          CtxList depth s = Thrown e s') ->
    siblingsThrow fuel originFile component settings expandList depth
      (v :: vs) s e s'
| siblingsThrow_later v vs s out t s1 e s' :
    (forall el,
        renderValue fuel v el originFile component settings expandList
          CtxList depth s = Done (appendNodes el out, t) s1) ->
    siblingsThrow fuel originFile component settings expandList depth
      vs s1 e s' ->
    siblingsThrow fuel originFile component settings expandList depth
      (v :: vs) s e s'.

(** What an outcome satisfies: [Q] of the result and state when the call
    returned, [E] of the state when it threw, [F] when the fuel ran out. *)
Definition outcome_sat {host : Host} {A : Type} (F : Prop) (o : Outcome A)
    (Q : A -> State -> Prop) (E : State -> Prop) : Prop :=
  match o with
  | Done a s => Q a s
  | Thrown _ s => E s
  | OutOfFuel => F
  end.

(** The container and the call tree of a call that returned. *)
Definition outputOf {host : Host} {A : Type} (o : Outcome (Element * A))
  : option Element :=
  match o with
  | Done (container, _) _ => Some container
  | _ => None
  end.

Definition callsOf {host : Host} {A B : Type} (o : Outcome (A * B))
  : option B :=
  match o with
  | Done (_, t) _ => Some t
  | _ => None
  end.

(** Where the nodes go: the outcome of rendering into an empty element,
    with the nodes that element got added to [el] instead. *)
Definition into {host : Host} {A : Type} (el : Element) (o : Outcome (Element * A))
  : Outcome (Element * A) :=
  match o with
  | Done (c0, t) s' => Done (appendNodes el (childNodes c0), t) s'
  | Thrown e s' => Thrown e s'
  | OutOfFuel => OutOfFuel
  end.

(** [calledBy args bound c]: the call tree [c] is that of a call that an
    invocation with arguments [args] may make. *)
Definition calledBy {host : Host} (args : Invocation) (bound : nat)
    (c : CallTree) : Prop :=
  inv_context (call_args c) = CtxList
  /\ inv_depth (call_args c) = inv_depth args + 1
  /\ inv_expandList (call_args c) = inv_expandList args
  /\ wellNested c = true
  /\ deepest c <= bound.

Definition isHtmlCell {host : Host} (c : Cell) : bool :=
  match c with
  | HtmlCell _ _ _ => true
  | _ => false
  end.

(** Of an HTML element, whether it is or holds the container. *)
Definition htmlHolds {host : Host} (c : Cell) : option bool :=
  match c with
  | HtmlCell _ _ holds => Some holds
  | _ => None
  end.

(** [sameValues h h']: from [h] to [h'] no array and no object has changed,
    and the HTML elements are at the same addresses and are or hold the
    container as before. *)
Definition sameValues {host : Host} (h h' : Heap) : Prop :=
  forall x,
    htmlHolds (h' x) = htmlHolds (h x)
    /\ (htmlHolds (h x) = None -> h' x = h x).

(** What holds of a call of [renderValue] that returned, from state [s]. *)
Definition render_post {host : Host} (settings : QuerySettings)
    (field : Literal) (container : Element) (expandList : bool)
    (context : ValueRenderContext) (depth : nat) (s : State)
    (r : Element * CallTree) (s' : State) : Prop :=
  sameValues (heap s) (heap s')
  /\ clock s <= clock s'
  /\ call_args (snd r) = mkInvocation field expandList context depth
  /\ wellNested (snd r) = true
  /\ deepest (snd r) <= Nat.max depth (S (maxRecursiveRenderDepth settings)).

(** The same for the body of an invocation with arguments [args]. *)
Definition body_post {host : Host} (settings : QuerySettings)
    (args : Invocation) (container : Element) (s : State)
    (r : Element * list CallTree) (s' : State) : Prop :=
  sameValues (heap s) (heap s')
  /\ clock s <= clock s'
  /\ Forall (calledBy args (S (maxRecursiveRenderDepth settings))) (snd r).

(** [everyValue P levels h v]: [P] holds of [v] and of the values below it
    that a render dispatches on when [v] is rendered with [levels] depths to
    go before the depth guard fires: the elements of arrays and the values
    of the entries of objects that are not instances of a class. *)
Fixpoint everyValue {host : Host} (P : Heap -> Literal -> bool)
    (levels : nat) (h : Heap) (v : Literal) : bool :=
  match levels with
  | 0 => true
  | S n =>
      P h v
      && match v with
         | VRef a =>
             match h a with
             | ArrayCell elements | DataArrayCell elements =>
                 forallb (everyValue P n h) elements
             | ObjectCell constructorName entries =>
                 isClassInstance constructorName
                 || forallb (fun e => everyValue P n h (snd e)) entries
             | HtmlCell _ _ _ => true
             end
         | _ => true
         end
  end.

(** The depths, from [depth] on, at which [renderValue] dispatches. *)
Definition levelsFrom (settings : QuerySettings) (depth : nat) : nat :=
  S (maxRecursiveRenderDepth settings) - depth.

(** The markdown that a value is rendered from by [renderCompactMarkdown],
    for the values that are. *)
Definition markdownOf {host : Host} (settings : QuerySettings) (v : Literal)
  : option string :=
  match v with
  | VNull => Some (renderNullAs settings)
  | VString s => Some ("" ++ s)
  | VBoolean b => Some ("" ++ boolean_toString b)
  | VNumber n => Some ("" ++ number_toString n)
  | VLink l => Some (link_markdown l)
  | _ => None
  end.

(** [v] is not an HTML element, and what the markdown renderer gives for it
    is made of nodes of its own, none of them an element that is a value. *)
Definition plainValue {host : Host} (originFile : string)
    (component : Component) (settings : QuerySettings) (h : Heap)
    (v : Literal) : bool :=
  match v with
  | VRef a => negb (isHtmlCell (h a))
  | _ =>
      match markdownOf settings v with
      | Some markdown =>
          match refsAll (renderMarkdown markdown originFile component) with
          | [] => true
          | _ :: _ => false
          end
      | None => true
      end
  end.

(** No HTML element is among the values that a render of [v] at [depth]
    dispatches on. *)
Definition htmlFree {host : Host} (originFile : string)
    (component : Component) (settings : QuerySettings) (depth : nat)
    (h : Heap) (v : Literal) : bool :=
  everyValue (plainValue originFile component settings)
    (levelsFrom settings depth) h v.

(** Whether [renderCompactMarkdown] can strip the rendered nodes: not when
    they have exactly one child element and the first paragraph in document
    order lies deeper than that. *)
Definition stripsCleanly (rendered : list Node) : bool :=
  match querySelectorFrom "p" rendered 0 with
  | Some paragraph =>
      negb (Nat.eqb (List.length (filter isElementNode rendered)) 1)
      || Nat.eqb (List.length paragraph) 1
  | None => true
  end.

(** Nothing stands in the way of rendering [v]: it is no HTML element that
    is or holds the container, the markdown it is rendered from can be
    stripped, and [JSON.stringify] does not throw on it. *)
Definition renderable {host : Host} (originFile : string)
    (component : Component) (settings : QuerySettings) (h : Heap)
    (v : Literal) : bool :=
  match v with
  | VRef a =>
      match h a with
      | HtmlCell _ _ holds => negb holds
      | _ => true
      end
  | VForeign x =>
      match JSON_stringify x with
      | Some _ => true
      | None => false
      end
  | _ =>
      match markdownOf settings v with
      | Some markdown =>
          stripsCleanly (renderMarkdown markdown originFile component)
      | None => true
      end
  end.

(** That holds of all the values that a render of [v] at [depth] dispatches
    on. *)
Definition errorFree {host : Host} (originFile : string)
    (component : Component) (settings : QuerySettings) (depth : nat)
    (h : Heap) (v : Literal) : bool :=
  everyValue (renderable originFile component settings)
    (levelsFrom settings depth) h v.


(** A top-level call of [renderValue] as [renderList] and [renderTable] make
    it: [out] are the nodes it adds to the element it is given. *)
Definition topLevel {host : Host} (originFile : string)
    (component : Component) (settings : QuerySettings)
    (context : ValueRenderContext)
    (v : Literal) (s : State) (out : list Node) (t : CallTree) (s' : State)
  : Prop :=
  forall el,
    renderValue (enoughFuel settings 0) v el originFile component settings
      true context 0 s
    = Done (appendNodes el out, t) s'.

(** The nodes of the entries of an object: the key, then the nodes of the
    value. *)
Definition keyedOuts (keys : list string) (outs : list (list Node))
  : list (list Node) :=
  map (fun ko => NText (fst ko ++ ": ") :: snd ko) (combine keys outs).

(** [P] holds of the arguments of every invocation of a call tree. *)
Fixpoint everyInvocation {host : Host} (P : Invocation -> bool)
    (t : CallTree) : bool :=
  match t with
  | Call args calls =>
      P args
      && (fix all (cs : list CallTree) : bool :=
            match cs with
            | [] => true
            | c :: cs' => everyInvocation P c && all cs'
            end) calls
  end.

Definition inListContext {host : Host} (args : Invocation) : bool :=
  match inv_context args with
  | CtxList => true
  | CtxRoot => false
  end.

(** The number of header cells and the numbers of cells of the rows of a
    table element. *)
Definition childCount (n : Node) : nat :=
  match n with
  | NElem _ _ kids => List.length kids
  | NText _ => 0
  | NHtml _ => 0
  end.

Definition tableShape (table : Node) : option (nat * list nat) :=
  match table with
  | NElem _ _ [NElem _ _ [headerRow]; NElem _ _ rows] =>
      Some (childCount headerRow, map childCount rows)
  | _ => None
  end.

(** An element of the tree itself, as [createEl] makes them: not a text node
    and not an element that is a value. *)
Definition isOwnElement (n : Node) : bool :=
  match n with
  | NElem _ _ _ => true
  | _ => false
  end.

(** A row of cells: an element whose child nodes are all elements of the
    tree itself. *)
Definition isRowOfCells (n : Node) : bool :=
  match n with
  | NElem _ _ kids => forallb isOwnElement kids
  | _ => false
  end.

(** ** The worker entry point *)

Module ImportEntry.
Section Worker.

(** Imported and not defined by the entry point: the host metadata, what
    [runImport] returns, the transfer encoding, JavaScript errors, and the two
    routines, either of which may throw. *)
Variables (Metadata ParseResult TransferEncoding JSError : Type).
Variable runImport : string -> string -> Metadata -> JSError + ParseResult.
Variable transferable : ParseResult -> JSError + TransferEncoding.

(** [evt.data] *)
Record JobMessage : Type := mkJob {
  evt_path : string;
  evt_contents : string;
  evt_metadata : Metadata
}.

Record ResultMessage : Type := mkResult {
  path : string;
  result : TransferEncoding
}.

(** How the promise of the [async] handler settles. *)
Inductive Settled : Type :=
| Fulfilled
| Rejected (e : JSError).

(** The messages the handler posts, in order, and how it settles. *)
Definition onmessage (evt : JobMessage) : list ResultMessage * Settled :=
  match runImport (evt_path evt) (evt_contents evt) (evt_metadata evt) with
  | inl e => ([], Rejected e)
  | inr result =>
      match transferable result with
      | inl e => ([], Rejected e)
      | inr encoded => ([mkResult (evt_path evt) encoded], Fulfilled)
      end
  end.

Definition posted (evt : JobMessage) : list ResultMessage :=
  fst (onmessage evt).

End Worker.
End ImportEntry.

(** ** A small host for the examples *)

Module Example.

(** A markdown renderer for the examples: ["> text"] is a block quote around
    a paragraph, ["# text"] a heading, the empty string renders nothing,
    anything else is one paragraph. *)
Definition exampleRenderMarkdown (markdown sourcePath : string)
    (component : unit) : list Node :=
  match markdown with
  | "" => []
  | String ">"%char (String " "%char text) =>
      [NElem "blockquote" [] [NElem "p" [] [NText text]]]
  | String "#"%char (String " "%char text) => [NElem "h1" [] [NText text]]
  | _ => [NElem "p" [] [NText markdown]]
  end.

(** How long the example renderer stays suspended: longest for ["a"]. *)
Definition exampleLatency (markdown : string) : nat :=
  if String.eqb markdown "a" then 30
  else if String.eqb markdown "b" then 10
  else String.length markdown.

(** [JSON.stringify] for the examples: it throws on the [BigInt] [10n]. *)
Definition exampleStringify (x : string) : option string :=
  if String.eqb x "10n" then None else Some x.

#[export] Instance exampleHost : Host := {|
  DateTime := nat;
  Duration := nat;
  Link := string;
  JSNumber := nat;
  Foreign := string;
  Component := unit;
  Locale := unit;
  renderMarkdown := exampleRenderMarkdown;
  renderLatency := exampleLatency;
  renderMinimalDate := fun _ _ _ => "2021-01-01";
  renderMinimalDuration := fun _ => "1 day";
  currentLocale := tt;
  link_markdown := fun l => "[[" ++ l ++ "]]";
  number_toString := fun _ => "1";
  JSON_stringify := exampleStringify
|}.

Definition settings0 : QuerySettings := mkSettings 0 "\-".
Definition settings2 : QuerySettings := mkSettings 2 "\-".

Definition td : Element := createEl "td" [].

Definition comp0 : @Component exampleHost := tt.

Definition origin : string := "note.md".

(** A heap with an empty array at 0, the array [["a", "b", "c"]] at 1, an
    array that contains itself at 2, an instance of a class [Task] at 3, and
    the array [[[ "a" ]]] at 4 (its inner array at 5). *)
Definition exampleHeap : Heap :=
  fun a =>
    match a with
    | 0 => ArrayCell []
    | 1 => ArrayCell [VString "a"; VString "b"; VString "c"]
    | 2 => ArrayCell [VRef 2]
    | 3 => ObjectCell (Some "Task") [("text", VString "x"); ("self", VRef 3)]
    | 4 => ArrayCell [VRef 5]
    | 5 => ArrayCell [VString "a"]
    | _ => ObjectCell (Some "Object") []
    end.

Definition state0 : State := mkState exampleHeap 0.

(** A heap with an object without a constructor at 0, [{k: "a", l: "b"}],
    and empty plain objects elsewhere. *)
Definition objectHeap : Heap :=
  fun a =>
    match a with
    | 0 => ObjectCell None [("k", VString "a"); ("l", VString "b")]
    | _ => ObjectCell (Some "Object") []
    end.

Definition objectState : State := mkState objectHeap 0.

(** A heap with HTML elements: at 0 the element [<b>x</b>], in no tree; at 1
    the array [[b, "a", b]] with that element twice; at 2 a [div] whose only
    child is the [em] at 3; at 4 the array [[div, em]]; at 5 an element that
    holds the container; at 6 the array [["a", "> x", "c"]]; empty arrays
    elsewhere. *)
Definition htmlHeap : Heap :=
  fun a =>
    match a with
    | 0 => HtmlCell (mkElement "b" [] [NText "x"]) None false
    | 1 => ArrayCell [VRef 0; VString "a"; VRef 0]
    | 2 => HtmlCell (mkElement "div" [] [NHtml 3]) None false
    | 3 => HtmlCell (mkElement "em" [] []) (Some 2) false
    | 4 => ArrayCell [VRef 2; VRef 3]
    | 5 => HtmlCell (mkElement "section" [] []) None true
    | 6 => ArrayCell [VString "a"; VString "> x"; VString "c"]
    | _ => ArrayCell []
    end.

Definition htmlState : State := mkState htmlHeap 0.

Definition failingEncode (n : nat) : string + nat := inl "not transferable".

Definition failingImport (p c : string) (m : unit) : string + nat :=
  inl "parse error".

Definition countImport (p c : string) (m : unit) : string + nat :=
  inr (String.length c).

Definition encodeNat (n : nat) : string + nat := inr n.

End Example.

(** * Properties *)

Open Scope list_scope.

(** ** The monad *)

Section MonadFacts.
Context {host : Host}.

Lemma bind_Done {A B : Type} (m : M A) (k : A -> M B) s b s2 :
  bind m k s = Done b s2 ->
  exists a s1, m s = Done a s1 /\ k a s1 = Done b s2.
Proof.
  unfold bind. destruct (m s) as [a s1| |]; intro H; try discriminate.
  exists a, s1. auto.
Qed.

Lemma bind_step {A B : Type} (m : M A) (k : A -> M B) s a s1 :
  m s = Done a s1 -> bind m k s = k a s1.
Proof. unfold bind. intros ->. reflexivity. Qed.

Lemma bind_outcome {A B : Type} (m : M A) (k : A -> M B) s :
  (exists a s1, m s = Done a s1 /\ bind m k s = k a s1)
  \/ (exists e s1, m s = Thrown e s1 /\ bind m k s = Thrown e s1)
  \/ (m s = OutOfFuel /\ bind m k s = OutOfFuel).
Proof.
  unfold bind. destruct (m s) as [a s1|e s1|]; eauto 8.
Qed.

Lemma sat_ret {A : Type} (F : Prop) (a : A) s
    (Q : A -> State -> Prop) (E : State -> Prop) :
  Q a s -> outcome_sat F (ret a s) Q E.
Proof. intro H. exact H. Qed.

Lemma sat_bind {A B : Type} (F : Prop) (m : M A) (k : A -> M B) s
    (Q : B -> State -> Prop) (E : State -> Prop) :
  outcome_sat F (m s) (fun a s1 => outcome_sat F (k a s1) Q E) E ->
  outcome_sat F (bind m k s) Q E.
Proof. unfold bind. destruct (m s); simpl; auto. Qed.

Lemma sat_conseq {A : Type} (F : Prop) (o : Outcome A)
    (Q Q' : A -> State -> Prop) (E E' : State -> Prop) :
  outcome_sat F o Q E ->
  (forall a s, Q a s -> Q' a s) ->
  (forall s, E s -> E' s) ->
  outcome_sat F o Q' E'.
Proof. destruct o; simpl; auto. Qed.

(** The loop rule: an invariant of the elements done so far and the loop
    variables. *)
Lemma sat_for_of {A S : Type} (F : Prop) (body : A -> S -> M S)
    (I : list A -> S -> State -> Prop) (E : State -> Prop) (xs : list A) :
  (forall pre x acc s,
      I pre acc s -> outcome_sat F (body x acc s) (I (pre ++ [x])) E) ->
  forall pre acc s,
    I pre acc s ->
    outcome_sat F (for_of xs body acc s) (I (pre ++ xs)) E.
Proof.
  intro Hbody. induction xs as [|x xs IH]; intros pre acc s HI.
  - simpl. rewrite app_nil_r. exact HI.
  - simpl for_of. apply sat_bind.
    eapply sat_conseq; [apply (Hbody pre x acc s HI) | | auto].
    intros acc1 s1 H1. simpl.
    replace (pre ++ x :: xs) with ((pre ++ [x]) ++ xs)
      by (rewrite <- app_assoc; reflexivity).
    apply IH. exact H1.
Qed.

Lemma sat_Done {A : Type} (F : Prop) (o : Outcome A)
    (Q : A -> State -> Prop) (E : State -> Prop) a s :
  outcome_sat F o Q E -> o = Done a s -> Q a s.
Proof. intros H ->. exact H. Qed.

End MonadFacts.

(** ** Guards that return without a recursive call *)

Section GuardFacts.
Context {host : Host}.
Variables (originFile : string) (component : Component)
          (settings : QuerySettings).

Lemma depth_ok (depth : nat) :
  depth <= maxRecursiveRenderDepth settings ->
  Nat.ltb (maxRecursiveRenderDepth settings) depth = false.
Proof. intro H. apply Nat.ltb_ge. exact H. Qed.

Lemma depth_exceeded (depth : nat) :
  maxRecursiveRenderDepth settings < depth ->
  Nat.ltb (maxRecursiveRenderDepth settings) depth = true.
Proof. intro H. apply Nat.ltb_lt. exact H. Qed.

(** One unfolding of [renderValue] on a reference, below the depth guard. *)
Lemma renderValue_ref fuel a container expandList context depth s :
  depth <= maxRecursiveRenderDepth settings ->
  renderValue (S fuel) (VRef a) container originFile component settings
    expandList context depth s
  = bind
      (match heap s a with
       | ArrayCell elements | DataArrayCell elements =>
           renderArray
             (fun v el e c d =>
                renderValue fuel v el originFile component settings e c d)
             elements container expandList context depth
       | ObjectCell constructorName entries =>
           renderObject
             (fun v el e c d =>
                renderValue fuel v el originFile component settings e c d)
             constructorName entries container expandList depth
       | HtmlCell element home holds =>
           leaf (appendHtml a element home holds container)
       end)
      (fun r =>
         ret (fst r,
              Call (mkInvocation (VRef a) expandList context depth) (snd r)))
      s.
Proof.
  intro Hd. cbn [renderValue]. unfold renderValue_body.
  rewrite (depth_ok _ Hd). cbn [dispatch]. unfold bind at 1 2, readCell.
  unfold bind.
  destruct (heap s a); (match goal with |- context [?m s] =>
    match m with renderArray _ _ _ _ _ _ => destruct (m s) as [[c t] s1| |]
               | renderObject _ _ _ _ _ _ => destruct (m s) as [[c t] s1| |]
               | leaf _ => destruct (m s) as [[c t] s1| |]
    end end); reflexivity.
Qed.

(** C1 (as amended): within the depth bound, an array or data array of
    length zero is rendered in inline mode as exactly the text
    [<empty list>], with no span, and in expand-list mode as an empty [ul]
    element, with no text; neither makes a recursive call. *)
Theorem empty_array_rendering fuel a container expandList context depth s :
  heap s a = ArrayCell [] \/ heap s a = DataArrayCell [] ->
  depth <= maxRecursiveRenderDepth settings ->
  renderValue (S fuel) (VRef a) container originFile component settings
    expandList context depth s
  = Done
      (if expandList
       then appendChild container
              (NElem "ul"
                 ["dataview"; "dataview-ul";
                  match context with
                  | CtxList => "dataview-result-list-ul"
                  | CtxRoot => "dataview-result-list-root-ul"
                  end] [])
       else appendText container "<empty list>",
       Call (mkInvocation (VRef a) expandList context depth) [])
      s.
Proof.
  intros Hcell Hd. rewrite (renderValue_ref _ _ _ _ _ _ _ Hd).
  destruct Hcell as [-> | ->]; destruct expandList; reflexivity.
Qed.

(** The guard itself: when the depth argument exceeds the maximum,
    [renderValue] appends the placeholder and returns; the value is not
    looked at and no call is made. *)
Lemma renderValue_truncates fuel field container expandList context depth s :
  maxRecursiveRenderDepth settings < depth ->
  renderValue (S fuel) field container originFile component settings
    expandList context depth s
  = Done (appendText container "...",
          Call (mkInvocation field expandList context depth) [])
         s.
Proof.
  intro Hd. cbn [renderValue]. unfold renderValue_body.
  rewrite (depth_exceeded _ Hd). reflexivity.
Qed.

(** C4: within the depth bound, an object whose constructor has a name that
    is not empty and not ["Object"] is rendered as the text [<Name>], and
    [renderValue] makes no call for its entries. *)
Theorem class_instance_not_traversed fuel a name entries container
    expandList context depth s :
  heap s a = ObjectCell (Some name) entries ->
  name <> "" ->
  name <> "Object" ->
  depth <= maxRecursiveRenderDepth settings ->
  renderValue (S fuel) (VRef a) container originFile component settings
    expandList context depth s
  = Done (appendText container ("<" ++ name ++ ">")%string,
          Call (mkInvocation (VRef a) expandList context depth) [])
         s.
Proof.
  intros Hcell Hne Hno Hd. rewrite (renderValue_ref _ _ _ _ _ _ _ Hd).
  rewrite Hcell. unfold renderObject, isClassInstance.
  apply String.eqb_neq in Hne. apply String.eqb_neq in Hno.
  rewrite Hne, Hno. reflexivity.
Qed.

End GuardFacts.

(** ** Call trees and appended nodes *)

Section TreeFacts.
Context {host : Host}.

Lemma wellNested_Call args calls bound :
  Forall (calledBy args bound) calls -> wellNested (Call args calls) = true.
Proof.
  induction 1 as [|c cs (Hc & Hd & He & Hw & _) _ IH]; [reflexivity|].
  cbn [wellNested] in *. rewrite Hc, Hd, He, Hw, Nat.eqb_refl, eqb_reflx.
  exact IH.
Qed.

Lemma deepest_Call args calls bound :
  inv_depth args <= bound ->
  Forall (calledBy args bound) calls -> deepest (Call args calls) <= bound.
Proof.
  intro Ha. induction 1 as [|c cs (_ & _ & _ & _ & Hb) _ IH]; [exact Ha|].
  cbn [deepest] in *. apply Nat.max_lub; assumption.
Qed.

Lemma appendNodes_nil el : appendNodes el [] = el.
Proof.
  destruct el. unfold appendNodes. simpl. rewrite app_nil_r. reflexivity.
Qed.

Lemma appendNodes_app el xs ys :
  appendNodes (appendNodes el xs) ys = appendNodes el (xs ++ ys).
Proof. unfold appendNodes. simpl. rewrite app_assoc. reflexivity. Qed.

Lemma appendChild_nodes el n : appendChild el n = appendNodes el [n].
Proof. reflexivity. Qed.

Lemma appendText_nodes el t : appendText el t = appendNodes el [NText t].
Proof. reflexivity. Qed.

Lemma Node_kids_ind (P : Node -> Prop) :
  (forall d, P (NText d)) ->
  (forall a, P (NHtml a)) ->
  (forall t c kids, Forall P kids -> P (NElem t c kids)) ->
  forall n, P n.
Proof.
  intros Ht Hh He. fix IH 1. intros [d|t c kids|a]; [apply Ht| |apply Hh].
  apply He. induction kids as [|k ks IHks]; constructor;
    [apply IH | exact IHks].
Qed.

Lemma refs_elem t c kids : refs (NElem t c kids) = refsAll kids.
Proof.
  simpl. induction kids as [|k ks IH]; [reflexivity|].
  simpl. rewrite IH. reflexivity.
Qed.

Lemma detach_elem ids t c kids :
  detach ids (NElem t c kids) = NElem t c (detachAll ids kids).
Proof.
  simpl. f_equal. induction kids as [|k ks IH]; [reflexivity|].
  simpl. rewrite IH. reflexivity.
Qed.

Lemma refsAll_app ks ks' : refsAll (ks ++ ks') = refsAll ks ++ refsAll ks'.
Proof.
  induction ks as [|k ks IH]; [reflexivity|].
  simpl. rewrite IH, app_assoc. reflexivity.
Qed.

Lemma detachAll_app ids ks ks' :
  detachAll ids (ks ++ ks') = detachAll ids ks ++ detachAll ids ks'.
Proof.
  induction ks as [|k ks IH]; [reflexivity|].
  destruct k as [d|t c kids|a]; simpl; rewrite IH; try reflexivity.
  destruct (moved ids a); reflexivity.
Qed.

(** Nothing is taken out of a tree that holds no element that is a value,
    and nothing when no element is to be taken out. *)
Lemma detach_plain ids :
  forall n, ids = [] \/ refs n = [] -> detach ids n = n.
Proof.
  apply (Node_kids_ind
           (fun n => ids = [] \/ refs n = [] -> detach ids n = n)).
  - reflexivity.
  - intros a [-> | H]; [reflexivity | discriminate].
  - intros t c kids IH H. rewrite detach_elem. f_equal.
    rewrite refs_elem in H.
    induction IH as [|k ks Hk _ IHks]; [reflexivity|].
    assert (Hk' : ids = [] \/ refs k = []).
    { destruct H as [H|H]; [left; exact H|].
      right. simpl in H. apply app_eq_nil in H. apply H. }
    assert (Hks : ids = [] \/ refsAll ks = []).
    { destruct H as [H|H]; [left; exact H|].
      right. simpl in H. apply app_eq_nil in H. apply H. }
    specialize (Hk Hk'). specialize (IHks Hks).
    destruct k as [d|t' c' kids'|a]; simpl.
    + rewrite IHks. reflexivity.
    + rewrite IHks. f_equal. exact Hk.
    + destruct Hk' as [-> | Hk']; [|discriminate].
      simpl. rewrite IHks. reflexivity.
Qed.

Lemma detachAll_plain ids ks :
  ids = [] \/ refsAll ks = [] -> detachAll ids ks = ks.
Proof.
  intro H.
  pose proof (detach_plain ids (NElem "" [] ks)) as Hd.
  rewrite detach_elem, refs_elem in Hd. specialize (Hd H).
  inversion Hd as [Heq]. rewrite Heq. exact Heq.
Qed.

Lemma attach_nodes parent child :
  attach parent child
  = mkElement (tagName parent) (classList parent)
      (detachAll (refs child) (childNodes parent) ++ [child]).
Proof.
  unfold attach. destruct (refs child) as [|a ids] eqn:Hr; [|reflexivity].
  rewrite detachAll_plain by (left; reflexivity). reflexivity.
Qed.

Lemma attach_plain parent child :
  refs child = [] -> attach parent child = appendNodes parent [child].
Proof. unfold attach. intros ->. reflexivity. Qed.

End TreeFacts.

(** ** Heaps that differ in the HTML elements only *)

Section HeapFacts.
Context {host : Host}.

Lemma sameValues_refl h : sameValues h h.
Proof. intro x. auto. Qed.

Lemma sameValues_trans h1 h2 h3 :
  sameValues h1 h2 -> sameValues h2 h3 -> sameValues h1 h3.
Proof.
  intros H12 H23 x. destruct (H12 x) as [Ha Hb], (H23 x) as [Hc Hd].
  split; [congruence|].
  intro Hn. rewrite Hd by congruence. apply Hb. exact Hn.
Qed.

Lemma sameValues_store h a e e' hm hm' holds :
  h a = HtmlCell e hm holds ->
  sameValues h (storeCell a (HtmlCell e' hm' holds) h).
Proof.
  intros Ha x. unfold storeCell.
  destruct (Nat.eqb x a) eqn:Hx; [|auto].
  apply Nat.eqb_eq in Hx. subst x. rewrite Ha. simpl.
  split; [reflexivity | discriminate].
Qed.

Lemma sameValues_takeFrom h w a : sameValues h (takeFrom w a h).
Proof.
  unfold takeFrom. destruct (h w) eqn:Hw; try apply sameValues_refl.
  eapply sameValues_store. exact Hw.
Qed.

End HeapFacts.

(** ** One invocation, given what its recursive calls satisfy *)

Section BodyFacts.
Context {host : Host}.
Variables (originFile : string) (component : Component)
          (settings : QuerySettings).
Variable F : Prop.

Lemma renderCompactMarkdown_sat markdown container s :
  outcome_sat F (renderCompactMarkdown markdown container originFile
                   component s)
    (fun c' s' =>
       heap s' = heap s /\ clock s <= clock s'
       /\ exists out, c' = appendNodes container out)
    (fun s' => heap s' = heap s).
Proof.
  unfold renderCompactMarkdown, awaitRenderMarkdown, stripParagraph.
  apply sat_bind. apply sat_bind. simpl.
  match goal with |- context [querySelector ?e "p"] =>
    destruct (querySelector e "p") as [p|] end.
  - match goal with |- context [Nat.eqb ?n 1] => destruct (Nat.eqb n 1) end.
    + match goal with |- context [removeChild ?e p] =>
        destruct (removeChild e p) as [err|sub] end; simpl.
      * reflexivity.
      * repeat split; [lia|]. eexists. apply appendChild_nodes.
    + simpl. repeat split; [lia|]. eexists. apply appendChild_nodes.
  - simpl. repeat split; [lia|]. eexists. apply appendChild_nodes.
Qed.

Lemma appendHtml_sat a element home holds container s :
  heap s a = HtmlCell element home holds ->
  outcome_sat F (appendHtml a element home holds container s)
    (fun c' s' => sameValues (heap s) (heap s') /\ clock s <= clock s')
    (fun s' => sameValues (heap s) (heap s')).
Proof.
  intro Ha. unfold appendHtml. destruct holds; simpl.
  - apply sameValues_refl.
  - split; [|lia].
    destruct home as [w|].
    + eapply sameValues_trans; [apply (sameValues_takeFrom _ w a)|].
      pose proof (sameValues_takeFrom (heap s) w a a) as [Hh _].
      rewrite Ha in Hh. simpl in Hh.
      destruct (takeFrom w a (heap s) a) as [| | |e' hm' hl'] eqn:Ht;
        try discriminate.
      inversion Hh; subst. eapply sameValues_store. exact Ht.
    + eapply sameValues_store. exact Ha.
Qed.

Variable self : Literal -> Element -> bool -> ValueRenderContext -> nat ->
                M (Element * CallTree).
Variable depth : nat.
Hypothesis depth_bounded : depth <= maxRecursiveRenderDepth settings.
Hypothesis self_sat : forall v el e c s,
  outcome_sat F (self v el e c (depth + 1) s)
    (render_post settings v el e c (depth + 1) s)
    (fun s' => sameValues (heap s) (heap s')).

Lemma leaf_sat args (m : M Element) container s :
  outcome_sat F (m s)
    (fun c' s' => sameValues (heap s) (heap s') /\ clock s <= clock s')
    (fun s' => sameValues (heap s) (heap s')) ->
  outcome_sat F (leaf m s) (body_post settings args container s)
    (fun s' => sameValues (heap s) (heap s')).
Proof.
  intro H. unfold leaf. apply sat_bind.
  eapply sat_conseq; [exact H | | auto].
  intros c' s' (Hh & Hc). simpl. unfold body_post. simpl. auto.
Qed.

Lemma markdown_leaf_sat args markdown container s :
  outcome_sat F
    (leaf (renderCompactMarkdown markdown container originFile component) s)
    (body_post settings args container s)
    (fun s' => sameValues (heap s) (heap s')).
Proof.
  apply leaf_sat.
  eapply sat_conseq; [apply renderCompactMarkdown_sat | |].
  - intros c' s' (Hh & Hc & _). rewrite Hh. split; [apply sameValues_refl|].
    exact Hc.
  - intros s' Hh. rewrite Hh. apply sameValues_refl.
Qed.

(** A recursive call made with the caller's [expandList] and ["list"]. *)
Lemma self_called args v el e s :
  inv_depth args = depth ->
  inv_expandList args = e ->
  outcome_sat F (self v el e CtxList (depth + 1) s)
    (fun r s' =>
       sameValues (heap s) (heap s') /\ clock s <= clock s'
       /\ calledBy args (S (maxRecursiveRenderDepth settings)) (snd r))
    (fun s' => sameValues (heap s) (heap s')).
Proof.
  intros Hargs He.
  eapply sat_conseq; [apply self_sat | | auto].
  intros [el' t] s' (Hh & Hc & Ha & Hw & Hd). simpl in *.
  split; [exact Hh|]. split; [exact Hc|].
  unfold calledBy. rewrite Ha. simpl.
  repeat split; auto; lia.
Qed.

(** The invariant of the four loops: no array and no object has changed
    since the invocation started, time has not gone back, and the calls made
    so far are calls of this invocation. *)
Lemma loop_sat {A Acc : Type} args (calls_of : Acc -> list CallTree)
    (body : A -> Acc -> M Acc) (xs : list A) (acc : Acc) s :
  calls_of acc = [] ->
  (forall x acc s1,
      outcome_sat F (body x acc s1)
        (fun acc' s' =>
           sameValues (heap s1) (heap s') /\ clock s1 <= clock s'
           /\ exists c,
               calledBy args (S (maxRecursiveRenderDepth settings)) c
               /\ calls_of acc' = calls_of acc ++ [c])
        (fun s' => sameValues (heap s1) (heap s'))) ->
  outcome_sat F (for_of xs body acc s)
    (fun acc' s' =>
       sameValues (heap s) (heap s') /\ clock s <= clock s'
       /\ Forall (calledBy args (S (maxRecursiveRenderDepth settings)))
                 (calls_of acc'))
    (fun s' => sameValues (heap s) (heap s')).
Proof.
  intros Hnil Hbody.
  apply (sat_for_of F body
           (fun _ acc' s' =>
              sameValues (heap s) (heap s') /\ clock s <= clock s'
              /\ Forall (calledBy args (S (maxRecursiveRenderDepth settings)))
                        (calls_of acc'))
           (fun s' => sameValues (heap s) (heap s')) xs) with (pre := []).
  - intros _ x acc1 s1 (Hh & Hc & Hf).
    eapply sat_conseq; [apply Hbody | |].
    + intros acc' s' (Hh' & Hc' & c & Hcb & Hcalls).
      split; [eapply sameValues_trans; eassumption|]. split; [lia|].
      rewrite Hcalls. apply Forall_app. split; [exact Hf|].
      constructor; [exact Hcb | constructor].
    + intros s' Hh'. eapply sameValues_trans; eassumption.
  - rewrite Hnil. split; [apply sameValues_refl|]. split; [lia|constructor].
Qed.

Ltac loop_body Hargs He :=
  eapply sat_conseq;
  [ apply (self_called _ _ _ _ _ Hargs He)
  | intros [? ?] ? (? & ? & ?); simpl in *; eauto 6
  | auto ].

Ltac after_loop :=
  let Hh := fresh "Hh" in
  let Hc := fresh "Hc" in
  let Hf := fresh "Hf" in
  intros ? ? (Hh & Hc & Hf);
  repeat match goal with p : (_ * _)%type |- _ => destruct p end;
  simpl in *; unfold body_post; simpl;
  split; [exact Hh | split; [exact Hc | exact Hf]].

Ltac at_once :=
  simpl; unfold body_post; simpl;
  split; [apply sameValues_refl | split; [lia | constructor]].

Lemma renderArray_sat args elements container expandList context s :
  inv_depth args = depth ->
  inv_expandList args = expandList ->
  outcome_sat F
    (renderArray self elements container expandList context depth s)
    (body_post settings args container s)
    (fun s' => sameValues (heap s) (heap s')).
Proof.
  intros Hargs He. unfold renderArray. destruct expandList.
  - apply sat_bind.
    eapply sat_conseq;
      [ apply (loop_sat args (fun acc => snd acc)); [reflexivity|] | | auto ].
    + intros child [list calls] s1. simpl. apply sat_bind.
      loop_body Hargs He.
    + after_loop.
  - destruct (Nat.eqb (List.length elements) 0); [at_once|].
    apply sat_bind.
    eapply sat_conseq;
      [ apply (loop_sat args (fun acc => snd acc)); [reflexivity|] | | auto ].
    + intros val [[span first] calls] s1. simpl. apply sat_bind.
      loop_body Hargs He.
    + after_loop.
Qed.

Lemma renderObject_sat args constructorName entries container expandList s :
  inv_depth args = depth ->
  inv_expandList args = expandList ->
  outcome_sat F
    (renderObject self constructorName entries container expandList depth s)
    (body_post settings args container s)
    (fun s' => sameValues (heap s) (heap s')).
Proof.
  intros Hargs He. unfold renderObject.
  destruct (isClassInstance constructorName); [at_once|].
  destruct expandList.
  - apply sat_bind.
    eapply sat_conseq;
      [ apply (loop_sat args (fun acc => snd acc)); [reflexivity|] | | auto ].
    + intros [key value] [list calls] s1. simpl. apply sat_bind.
      loop_body Hargs He.
    + after_loop.
  - destruct (Nat.eqb (List.length entries) 0); [at_once|].
    apply sat_bind.
    eapply sat_conseq;
      [ apply (loop_sat args (fun acc => snd acc)); [reflexivity|] | | auto ].
    + intros [key value] [[span first] calls] s1. simpl. apply sat_bind.
      loop_body Hargs He.
    + after_loop.
Qed.

Lemma dispatch_sat args field container expandList context s :
  inv_depth args = depth ->
  inv_expandList args = expandList ->
  outcome_sat F
    (dispatch self originFile component settings field container expandList
       context depth s)
    (body_post settings args container s)
    (fun s' => sameValues (heap s) (heap s')).
Proof.
  intros Hargs He.
  destruct field; cbn [dispatch];
    try apply markdown_leaf_sat; try at_once.
  - apply sat_bind. unfold readCell. simpl.
    destruct (heap s a) eqn:Ha.
    + apply renderArray_sat; assumption.
    + apply renderArray_sat; assumption.
    + apply renderObject_sat; assumption.
    + apply leaf_sat. apply appendHtml_sat. exact Ha.
  - destruct (JSON_stringify x); [at_once|]. simpl. apply sameValues_refl.
Qed.

End BodyFacts.
(** ** Every invocation, by induction on the fuel *)

Section RenderFacts.
Context {host : Host}.
Variables (originFile : string) (component : Component)
          (settings : QuerySettings).

(** With [F := True] this is a statement about the calls that end; with
    [F := False] and enough fuel it also says that the call ends. *)
Lemma renderValue_sat (F : Prop) (fuel : nat) :
  forall field container expandList context depth s,
    F \/ enoughFuel settings depth <= fuel ->
    outcome_sat F
      (renderValue fuel field container originFile component settings
         expandList context depth s)
      (render_post settings field container expandList context depth s)
      (fun s' => sameValues (heap s) (heap s')).
Proof.
  induction fuel as [|fuel IH];
    intros field container expandList context depth s Hfuel.
  - simpl. destruct Hfuel as [HF|Hf]; [exact HF|].
    unfold enoughFuel in Hf. lia.
  - cbn [renderValue]. apply sat_bind. unfold renderValue_body.
    destruct (Nat.ltb (maxRecursiveRenderDepth settings) depth) eqn:Hd.
    + apply Nat.ltb_lt in Hd. simpl. unfold render_post. simpl.
      split; [apply sameValues_refl|]. repeat split; auto. lia.
    + apply Nat.ltb_ge in Hd.
      eapply sat_conseq;
        [ apply (dispatch_sat originFile component settings F _ depth Hd)
            with (args := mkInvocation field expandList context depth);
          [ | reflexivity | reflexivity ]
        | | auto ].
      * intros v el e c s1. apply IH.
        destruct Hfuel as [HF|Hf]; [left; exact HF|].
        right. unfold enoughFuel in *. lia.
      * intros [c' calls] s' (Hh & Hc & Hf). simpl in *.
        unfold render_post. cbn [fst snd call_args].
        split; [exact Hh|]. split; [exact Hc|].
        split; [reflexivity|]. split.
        -- eapply wellNested_Call. exact Hf.
        -- apply Nat.le_trans with (S (maxRecursiveRenderDepth settings));
             [|lia].
           apply deepest_Call; [simpl; lia | exact Hf].
Qed.

(** Enough fuel: the call returns or throws. *)
Lemma renderValue_ends fuel field container expandList context depth s :
  enoughFuel settings depth <= fuel ->
  renderValue fuel field container originFile component settings expandList
    context depth s <> OutOfFuel.
Proof.
  intros Hfuel Hout.
  pose proof (renderValue_sat False fuel field container expandList context
                depth s (or_intror Hfuel)) as H.
  rewrite Hout in H. exact H.
Qed.

(** More fuel does not change the outcome of a call that ended. *)
Lemma for_of_ext {A Acc : Type} (xs : list A) (body body' : A -> Acc -> M Acc) :
  (forall x acc s, body x acc s <> OutOfFuel -> body' x acc s = body x acc s) ->
  forall acc s,
    for_of xs body acc s <> OutOfFuel ->
    for_of xs body' acc s = for_of xs body acc s.
Proof.
  intro Hb. induction xs as [|x xs IH]; intros acc s Hne; [reflexivity|].
  simpl in *. unfold bind in *.
  destruct (body x acc s) as [acc1 s1|e s1|] eqn:Hx.
  - rewrite (Hb x acc s) by (rewrite Hx; discriminate). rewrite Hx.
    apply IH. exact Hne.
  - rewrite (Hb x acc s) by (rewrite Hx; discriminate). rewrite Hx.
    reflexivity.
  - contradiction.
Qed.

Lemma bind_ends_l {A B : Type} (m : M A) (k : A -> M B) s :
  bind m k s <> OutOfFuel -> m s <> OutOfFuel.
Proof. unfold bind. destruct (m s); congruence. Qed.

Lemma bind_congr_l {A B : Type} (m m' : M A) (k : A -> M B) s :
  m' s = m s -> bind m' k s = bind m k s.
Proof. unfold bind. intros ->. reflexivity. Qed.

Section MoreFuel.
Variables self self' : Literal -> Element -> bool -> ValueRenderContext ->
                       nat -> M (Element * CallTree).
Hypothesis self_ext : forall v el e c d s,
  self v el e c d s <> OutOfFuel -> self' v el e c d s = self v el e c d s.

Ltac same_loop :=
  apply for_of_ext;
  [ intros ? ? ?; simpl; repeat match goal with
                         | |- context [match ?p with (_, _) => _ end] =>
                             destruct p
                         end;
    let Hb := fresh "Hb" in
    intro Hb; apply bind_congr_l, self_ext; exact (bind_ends_l _ _ _ Hb)
  | eapply bind_ends_l; eassumption ].

Lemma renderValue_body_ext field container expandList context depth s :
  renderValue_body self originFile component settings field container
    expandList context depth s <> OutOfFuel ->
  renderValue_body self' originFile component settings field container
    expandList context depth s
  = renderValue_body self originFile component settings field container
      expandList context depth s.
Proof.
  unfold renderValue_body.
  destruct (Nat.ltb (maxRecursiveRenderDepth settings) depth);
    [reflexivity|].
  destruct field; cbn [dispatch]; try reflexivity.
  assert (Harr : forall elements,
             renderArray self elements container expandList context depth s
               <> OutOfFuel ->
             renderArray self' elements container expandList context depth s
             = renderArray self elements container expandList context depth
                 s).
  { intros elements H. unfold renderArray in *. destruct expandList.
    - apply bind_congr_l. same_loop.
    - destruct (Nat.eqb (List.length elements) 0); [reflexivity|].
      apply bind_congr_l. same_loop. }
  unfold bind, readCell.
  destruct (heap s a) as [elements|elements|ctor entries|el hm hl];
    try apply Harr; [|reflexivity].
  intro H. unfold renderObject in *.
  destruct (isClassInstance ctor); [reflexivity|].
  destruct expandList.
  - apply bind_congr_l. same_loop.
  - destruct (Nat.eqb (List.length entries) 0); [reflexivity|].
    apply bind_congr_l. same_loop.
Qed.

End MoreFuel.

(** The outcome of a call that ended does not depend on the fuel. *)
Lemma renderValue_more_fuel fuel :
  forall field container expandList context depth s,
    renderValue fuel field container originFile component settings
      expandList context depth s <> OutOfFuel ->
    renderValue (S fuel) field container originFile component settings
      expandList context depth s
    = renderValue fuel field container originFile component settings
        expandList context depth s.
Proof.
  induction fuel as [|fuel IH];
    intros field container expandList context depth s Hne.
  - exfalso. apply Hne. reflexivity.
  - cbn [renderValue] in *. apply bind_congr_l.
    apply renderValue_body_ext.
    + intros v el e c d s1 H. apply IH. exact H.
    + eapply bind_ends_l. exact Hne.
Qed.

Lemma renderValue_fuel_irrelevant fuel extra field container expandList
    context depth s :
  enoughFuel settings depth <= fuel ->
  renderValue (fuel + extra) field container originFile component settings
    expandList context depth s
  = renderValue fuel field container originFile component settings
      expandList context depth s.
Proof.
  intro Hfuel. induction extra as [|extra IH].
  - rewrite Nat.add_0_r. reflexivity.
  - rewrite Nat.add_succ_r, renderValue_more_fuel; [exact IH|].
    rewrite IH. apply renderValue_ends. exact Hfuel.
Qed.

End RenderFacts.

(** ** Trees without elements that are values *)

Section PlainFacts.

Lemma refsAll_Forall ks :
  refsAll ks = [] <-> Forall (fun k => refs k = []) ks.
Proof.
  induction ks as [|k ks IH]; simpl.
  - split; auto.
  - split.
    + intro H. apply app_eq_nil in H as [Hk Hks].
      constructor; [exact Hk | apply IH; exact Hks].
    + intro H. inversion H as [|k' ks' Hk Hks]; subst.
      rewrite Hk. simpl. apply IH. exact Hks.
Qed.

Lemma updateNth_Forall {A : Type} (P : A -> Prop) (f : A -> A) i l :
  (forall x, P x -> P (f x)) -> Forall P l -> Forall P (updateNth f i l).
Proof.
  intros Hf H. revert i. induction H as [|x l Hx Hl IH]; intros [|i]; simpl;
    constructor; auto.
Qed.

Lemma removeNth_Forall {A : Type} (P : A -> Prop) i (l : list A) :
  Forall P l -> Forall P (removeNth i l).
Proof.
  intro H. revert i. induction H as [|x l Hx Hl IH]; intros [|i]; simpl;
    auto.
Qed.

Lemma childNodesAt_plain p :
  forall ks, refsAll ks = [] -> refsAll (childNodesAt ks p) = [].
Proof.
  induction p as [|i p IH]; intros ks H; [exact H|].
  simpl. destruct (nth_error ks i) as [[d|t c kids|a]|] eqn:Hn;
    try reflexivity.
  apply IH. apply refsAll_Forall in H.
  apply nth_error_In in Hn. rewrite Forall_forall in H.
  specialize (H _ Hn). rewrite refs_elem in H. exact H.
Qed.

Lemma clearAt_plain p :
  forall ks, refsAll ks = [] -> refsAll (clearAt ks p) = [].
Proof.
  induction p as [|i p IH]; intros ks H; [exact H|].
  apply refsAll_Forall. apply refsAll_Forall in H.
  destruct p as [|j p]; simpl; apply updateNth_Forall; auto.
  - intros [d|t c kids|a] Hx; auto.
  - intros [d|t c kids|a] Hx; auto.
    rewrite refs_elem in *. apply IH. exact Hx.
Qed.

End PlainFacts.

(** ** Values without HTML elements: the heap stays, nodes are added *)

Section FreeFacts.
Context {host : Host}.
Variables (originFile : string) (component : Component)
          (settings : QuerySettings).

Lemma moveChildren_appends pending subcontainer :
  moveChildren pending subcontainer = appendNodes subcontainer pending.
Proof.
  revert subcontainer. induction pending as [|n rest IH]; intro sub.
  - simpl. rewrite appendNodes_nil. reflexivity.
  - simpl. rewrite IH, appendChild_nodes, appendNodes_app. reflexivity.
Qed.

Lemma unwrapParagraph_span tag cls ks p :
  unwrapParagraph (mkElement tag cls ks) p
  = mkElement tag cls (clearAt ks p ++ childNodesAt ks p).
Proof. unfold unwrapParagraph. rewrite moveChildren_appends. reflexivity. Qed.

Lemma stripParagraph_plain sub s sub' s' :
  refsAll (childNodes sub) = [] ->
  stripParagraph sub s = Done sub' s' ->
  refsAll (childNodes sub') = [].
Proof.
  intros Hp H. unfold stripParagraph in H.
  destruct (querySelector sub "p") as [p|]; [|inversion H; subst; exact Hp].
  destruct (Nat.eqb (List.length (children sub)) 1);
    [|inversion H; subst; exact Hp].
  destruct sub as [tag cls ks]. rewrite unwrapParagraph_span in H.
  unfold removeChild, liftDOM in H. cbn [childNodes tagName classList] in *.
  destruct p as [|i [|j p]]; try discriminate.
  destruct (Nat.ltb i _); [|discriminate].
  pose proof (clearAt_plain [i] ks Hp) as H1.
  pose proof (childNodesAt_plain [i] ks Hp) as H2.
  inversion H; subst. cbn [childNodes].
  apply refsAll_Forall. apply removeNth_Forall. apply refsAll_Forall.
  rewrite refsAll_app. simpl in H1, H2. rewrite H1, H2. reflexivity.
Qed.

Lemma stripParagraph_state sub s :
  match stripParagraph sub s with
  | Done _ s' => s' = s
  | Thrown _ s' => s' = s
  | OutOfFuel => False
  end.
Proof.
  unfold stripParagraph.
  destruct (querySelector sub "p") as [p|]; [|reflexivity].
  destruct (Nat.eqb (List.length (children sub)) 1); [|reflexivity].
  destruct (removeChild (unwrapParagraph sub p) p); reflexivity.
Qed.

Local Abbreviation added container s :=
  (fun (c' : Element) (s' : State) =>
     heap s' = heap s
     /\ exists out, c' = appendNodes container out /\ refsAll out = []).

Lemma renderCompactMarkdown_free markdown container s :
  refsAll (renderMarkdown markdown originFile component) = [] ->
  outcome_sat True
    (renderCompactMarkdown markdown container originFile component s)
    (added container s) (fun s' => heap s' = heap s).
Proof.
  intro Hp.
  unfold renderCompactMarkdown, awaitRenderMarkdown, bind, suspend, ret.
  cbn [createSpan createEl tagName classList childNodes app].
  match goal with |- context [stripParagraph ?e ?s1] =>
    pose proof (stripParagraph_state e s1) as Hst;
    pose proof (stripParagraph_plain e s1) as Hpl;
    destruct (stripParagraph e s1) as [sub s'|e' s'|] end;
    simpl; [| subst; reflexivity | exact I].
  subst s'. split; [reflexivity|].
  exists [node_of sub]. split; [reflexivity|].
  cbn [refsAll]. rewrite app_nil_r.
  change (refs (node_of sub)) with (refs (NElem (tagName sub) (classList sub) (childNodes sub))).
  rewrite refs_elem.
  eapply Hpl; [exact Hp | reflexivity].
Qed.

(** A loop whose steps add nodes to the element among the loop variables
    and keep the heap. *)
Lemma loop_free {A Acc : Type} (el_of : Acc -> Element)
    (body : A -> Acc -> M Acc) (good : A -> Prop) (h : Heap) xs :
  Forall good xs ->
  (forall x acc s1,
      good x -> heap s1 = h ->
      outcome_sat True (body x acc s1)
        (fun acc' s' => added (el_of acc) s1 (el_of acc') s')
        (fun s' => heap s' = heap s1)) ->
  forall acc s1,
    heap s1 = h ->
    outcome_sat True (for_of xs body acc s1)
      (fun acc' s' => added (el_of acc) s1 (el_of acc') s')
      (fun s' => heap s' = heap s1).
Proof.
  intros Hgood Hbody.
  induction Hgood as [|x xs Hx _ IH]; intros acc s1 Hh.
  - simpl. split; [reflexivity|]. exists []. rewrite appendNodes_nil. auto.
  - simpl for_of. apply sat_bind.
    eapply sat_conseq; [apply (Hbody x acc s1 Hx Hh) | | auto].
    intros acc1 s2 (Hh2 & out & Hel & Hr). simpl.
    eapply sat_conseq; [apply (IH acc1 s2); congruence | |].
    + intros acc2 s3 (Hh3 & out' & Hel' & Hr').
      split; [congruence|]. exists (out ++ out').
      rewrite Hel', Hel, appendNodes_app, refsAll_app, Hr, Hr'. auto.
    + intros s3 Hh3. congruence.
Qed.

Lemma refs_node_of el : refs (node_of el) = refsAll (childNodes el).
Proof.
  change (refs (node_of el))
    with (refs (NElem (tagName el) (classList el) (childNodes el))).
  apply refs_elem.
Qed.

Lemma attach_added parent el out :
  refsAll (childNodes el) = [] -> refsAll out = [] ->
  attach parent (node_of (appendNodes el out))
  = appendNodes parent [node_of (appendNodes el out)]
    /\ refsAll [node_of (appendNodes el out)] = [].
Proof.
  intros Hel Hout.
  assert (Hr : refs (node_of (appendNodes el out)) = []).
  { rewrite refs_node_of. simpl. rewrite refsAll_app, Hel, Hout.
    reflexivity. }
  split; [apply attach_plain; exact Hr|].
  cbn [refsAll]. rewrite Hr. reflexivity.
Qed.

(** What [everyValue] says of a value that is dispatched on, and of the
    values below it. *)
Lemma everyValue_step P depth h v :
  depth <= maxRecursiveRenderDepth settings ->
  everyValue P (levelsFrom settings depth) h v = true ->
  P h v = true
  /\ match v with
     | VRef a =>
         match h a with
         | ArrayCell elements | DataArrayCell elements =>
             Forall (fun x =>
                       everyValue P (levelsFrom settings (depth + 1)) h x
                       = true) elements
         | ObjectCell constructorName entries =>
             isClassInstance constructorName = false ->
             Forall (fun e =>
                       everyValue P (levelsFrom settings (depth + 1)) h
                         (snd e) = true) entries
         | HtmlCell _ _ _ => True
         end
     | _ => True
     end.
Proof.
  intros Hd. unfold levelsFrom.
  replace (S (maxRecursiveRenderDepth settings) - depth)
    with (S (maxRecursiveRenderDepth settings - depth)) by lia.
  replace (S (maxRecursiveRenderDepth settings) - (depth + 1))
    with (maxRecursiveRenderDepth settings - depth) by lia.
  cbn [everyValue]. intro H. apply andb_prop in H as [HP H].
  split; [exact HP|].
  destruct v; try exact I.
  destruct (h a) as [elements|elements|ctor entries|el home holds];
    try exact I.
  - apply Forall_forall. apply forallb_forall. exact H.
  - apply Forall_forall. apply forallb_forall. exact H.
  - intro Hc. rewrite Hc in H. simpl in H.
    apply Forall_forall. intros e He.
    exact (proj1 (forallb_forall _ _) H e He).
Qed.

Section FreeBody.

Variable self : Literal -> Element -> bool -> ValueRenderContext -> nat ->
                M (Element * CallTree).
Variable depth : nat.

Hypothesis self_free :
  forall v el e c s1,
    htmlFree originFile component settings (depth + 1) (heap s1) v = true ->
    outcome_sat True (self v el e c (depth + 1) s1)
      (fun r s' => added el s1 (fst r) s')
      (fun s' => heap s' = heap s1).

Lemma leaf_free markdown container s :
  refsAll (renderMarkdown markdown originFile component) = [] ->
  outcome_sat True
    (leaf (renderCompactMarkdown markdown container originFile component) s)
    (fun r s' => added container s (fst r) s')
    (fun s' => heap s' = heap s).
Proof.
  intro Hp. unfold leaf. apply sat_bind.
  eapply sat_conseq; [apply renderCompactMarkdown_free; exact Hp | | auto].
  intros c' s' H. exact H.
Qed.

Ltac free_step Hx Hh out Hr :=
  let Hh2 := fresh "Hh2" in
  let Hel := fresh "Hel" in
  apply sat_bind;
  eapply sat_conseq; [apply self_free; rewrite Hh; exact Hx | | auto];
  intros [? ?] ? (Hh2 & out & Hel & Hr); simpl in Hel; subst;
  simpl; split; [exact Hh2|].

Ltac free_li list Hr :=
  match goal with
  | |- exists _, attach _ (node_of (appendNodes ?li ?out)) = _ /\ _ =>
      let Ha := fresh "Ha" in
      let Hp := fresh "Hp" in
      destruct (attach_added list li out eq_refl Hr) as [Ha Hp];
      eexists; split; [exact Ha | exact Hp]
  end.

Ltac free_span out Hr :=
  eexists;
  rewrite ?appendText_nodes, ?appendNodes_app;
  split; [reflexivity|];
  rewrite ?refsAll_app, Hr; reflexivity.

Ltac free_after :=
  let Hh := fresh "Hh" in
  let outs := fresh "outs" in
  let Hel := fresh "Hel" in
  let Hr := fresh "Hr" in
  intros [? ?] ? (Hh & outs & Hel & Hr); simpl in Hel; subst;
  simpl; split; [exact Hh|];
  match goal with
  | |- exists _, attach ?c (node_of (appendNodes ?el ?out)) = _ /\ _ =>
      destruct (attach_added c el out eq_refl Hr) as [Ha Hp];
      eexists; split; [exact Ha | exact Hp]
  end.

Ltac free_once :=
  simpl; split; [reflexivity|];
  eexists; rewrite ?appendText_nodes; split; reflexivity.

Lemma renderArray_free elements container expandList context s :
  Forall (fun x =>
            htmlFree originFile component settings (depth + 1) (heap s) x
            = true) elements ->
  outcome_sat True
    (renderArray self elements container expandList context depth s)
    (fun r s' => added container s (fst r) s')
    (fun s' => heap s' = heap s).
Proof.
  intro Hxs. unfold renderArray. destruct expandList.
  - apply sat_bind.
    eapply sat_conseq;
      [ apply (loop_free (fun acc : Element * list CallTree => fst acc) _ _
                 (heap s) elements Hxs); [|reflexivity] | | auto ].
    + intros child [list calls] s1 Hx Hh. cbv zeta.
      free_step Hx Hh out Hr. free_li list Hr.
    + free_after.
  - destruct (Nat.eqb (List.length elements) 0); [free_once|].
    apply sat_bind.
    eapply sat_conseq;
      [ apply (loop_free (fun acc : Element * bool * list CallTree =>
                            fst (fst acc)) _ _
                 (heap s) elements Hxs); [|reflexivity] | | auto ].
    + intros val [[span first] calls] s1 Hx Hh. cbv zeta.
      destruct first; free_step Hx Hh out Hr; free_span out Hr.
    + intros [[? ?] ?] ? (Hh & outs & Hel & Hr); simpl in Hel; subst.
      simpl. split; [exact Hh|].
      match goal with
      | |- exists _, attach ?c (node_of (appendNodes ?el ?out)) = _ /\ _ =>
          destruct (attach_added c el out eq_refl Hr) as [Ha Hp];
          eexists; split; [exact Ha | exact Hp]
      end.
Qed.

Lemma renderObject_free constructorName entries container expandList s :
  (isClassInstance constructorName = false ->
   Forall (fun e =>
             htmlFree originFile component settings (depth + 1) (heap s)
               (snd e) = true) entries) ->
  outcome_sat True
    (renderObject self constructorName entries container expandList depth s)
    (fun r s' => added container s (fst r) s')
    (fun s' => heap s' = heap s).
Proof.
  intro Hxs. unfold renderObject.
  destruct (isClassInstance constructorName); [free_once|].
  specialize (Hxs eq_refl).
  destruct expandList.
  - apply sat_bind.
    eapply sat_conseq;
      [ apply (loop_free (fun acc : Element * list CallTree => fst acc) _ _
                 (heap s) entries Hxs); [|reflexivity] | | auto ].
    + intros [key value] [list calls] s1 Hx Hh. cbv zeta.
      free_step Hx Hh out Hr. free_li list Hr.
    + free_after.
  - destruct (Nat.eqb (List.length entries) 0); [free_once|].
    apply sat_bind.
    eapply sat_conseq;
      [ apply (loop_free (fun acc : Element * bool * list CallTree =>
                            fst (fst acc)) _ _
                 (heap s) entries Hxs); [|reflexivity] | | auto ].
    + intros [key value] [[span first] calls] s1 Hx Hh. cbv zeta.
      destruct first; free_step Hx Hh out Hr; free_span out Hr.
    + intros [[? ?] ?] ? (Hh & outs & Hel & Hr); simpl in Hel; subst.
      simpl. split; [exact Hh|].
      match goal with
      | |- exists _, attach ?c (node_of (appendNodes ?el ?out)) = _ /\ _ =>
          destruct (attach_added c el out eq_refl Hr) as [Ha Hp];
          eexists; split; [exact Ha | exact Hp]
      end.
Qed.

Lemma renderValue_body_free field container expandList context s :
  htmlFree originFile component settings depth (heap s) field = true ->
  outcome_sat True
    (renderValue_body self originFile component settings field container
       expandList context depth s)
    (fun r s' => added container s (fst r) s')
    (fun s' => heap s' = heap s).
Proof.
  intro Hf. unfold renderValue_body.
  destruct (Nat.ltb (maxRecursiveRenderDepth settings) depth) eqn:Hd;
    [free_once|].
  apply Nat.ltb_ge in Hd.
  destruct (everyValue_step _ depth (heap s) field Hd Hf) as [Hp Hbelow].
  destruct field; cbn [dispatch]; try free_once;
    try (apply leaf_free; unfold plainValue in Hp; cbn [markdownOf] in Hp;
         match type of Hp with
         | match ?r with [] => _ | _ :: _ => _ end = _ =>
             destruct r; [reflexivity | discriminate]
         end).
  - apply sat_bind. unfold readCell. simpl. simpl in Hp.
    destruct (heap s a) as [elements|elements|ctor entries|el home holds].
    + apply renderArray_free. exact Hbelow.
    + apply renderArray_free. exact Hbelow.
    + apply renderObject_free. exact Hbelow.
    + discriminate.
  - destruct (JSON_stringify x); [free_once|]. reflexivity.
Qed.

Lemma attach_into el child :
  refsAll (childNodes (attach (createEl "" []) child)) = [] ->
  attach el child
  = appendNodes el (childNodes (attach (createEl "" []) child)).
Proof.
  assert (Hc : childNodes (attach (createEl "" []) child) = [child]).
  { unfold attach. destruct (refs child); reflexivity. }
  rewrite Hc. cbn [refsAll]. rewrite app_nil_r. intro H.
  apply attach_plain. exact H.
Qed.

Lemma leaf_into markdown el s :
  leaf (renderCompactMarkdown markdown el originFile component) s
  = into el
      (leaf (renderCompactMarkdown markdown (createEl "" []) originFile
               component) s).
Proof.
  unfold leaf, renderCompactMarkdown, awaitRenderMarkdown, bind, suspend, ret.
  match goal with |- context [stripParagraph ?e ?s] =>
    destruct (stripParagraph e s) as [? ?|? ?|] end; reflexivity.
Qed.

Ltac into_loop :=
  unfold bind;
  match goal with
  | |- context [for_of ?xs ?b ?acc ?s] =>
      destruct (for_of xs b acc s) as [? ?|? ?|]
  end;
  repeat match goal with p : (_ * _)%type |- _ => destruct p end;
  simpl; [|intros _; reflexivity..];
  let out := fresh "out" in
  let Hc := fresh "Hc" in
  let Hr := fresh "Hr" in
  intros (_ & out & Hc & Hr);
  unfold ret; rewrite attach_into; [reflexivity | rewrite Hc; exact Hr].

(** Rendering into [el] adds to [el] the nodes that rendering into an empty
    element gives that element. *)
Lemma renderValue_body_into field el expandList context s :
  htmlFree originFile component settings depth (heap s) field = true ->
  renderValue_body self originFile component settings field el expandList
    context depth s
  = into el
      (renderValue_body self originFile component settings field
         (createEl "" []) expandList context depth s).
Proof.
  intro Hf.
  pose proof (renderValue_body_free field (createEl "" []) expandList
                context s Hf) as Hfree.
  revert Hfree. unfold renderValue_body.
  destruct (Nat.ltb (maxRecursiveRenderDepth settings) depth) eqn:Hd;
    [reflexivity|].
  apply Nat.ltb_ge in Hd.
  destruct (everyValue_step _ depth (heap s) field Hd Hf) as [Hp _].
  destruct field; cbn [dispatch]; try (intros _; apply leaf_into);
    try (intros _; reflexivity).
  - unfold readCell.
    assert (Harr : forall elements,
               outcome_sat True
                 (renderArray self elements (createEl "" []) expandList
                    context depth s)
                 (fun r s' => added (createEl "" []) s (fst r) s')
                 (fun s' => heap s' = heap s) ->
               renderArray self elements el expandList context depth s
               = into el
                   (renderArray self elements (createEl "" []) expandList
                      context depth s)).
    { intro elements. unfold renderArray. destruct expandList.
      - into_loop.
      - destruct (Nat.eqb (List.length elements) 0);
          [intros _; reflexivity|].
        into_loop. }
    unfold bind. cbv beta. simpl in Hp.
    destruct (heap s a) as [elements|elements|ctor entries|e1 home holds];
      try apply Harr; [|discriminate].
    unfold renderObject.
    destruct (isClassInstance ctor); [intros _; reflexivity|].
    destruct expandList.
    + into_loop.
    + destruct (Nat.eqb (List.length entries) 0); [intros _; reflexivity|].
      into_loop.
  - destruct (JSON_stringify x); intros _; reflexivity.
Qed.

End FreeBody.

(** A render that dispatches on no HTML element keeps the heap, and adds to
    its container nodes of its own. *)
Lemma renderValue_free fuel :
  forall field container expandList context depth s,
    htmlFree originFile component settings depth (heap s) field = true ->
    outcome_sat True
      (renderValue fuel field container originFile component settings
         expandList context depth s)
      (fun r s' => added container s (fst r) s')
      (fun s' => heap s' = heap s).
Proof.
  induction fuel as [|fuel IH];
    intros field container expandList context depth s Hf; [exact I|].
  cbn [renderValue]. apply sat_bind.
  eapply sat_conseq;
    [apply renderValue_body_free; [|exact Hf] | | auto].
  - intros v el e c s1 Hv. apply IH. exact Hv.
  - intros [c' calls] s' H. exact H.
Qed.

(** Rendering into [el] adds to [el] the nodes that rendering into an empty
    element gives that element. *)
Lemma renderValue_into fuel field el expandList context depth s :
  htmlFree originFile component settings depth (heap s) field = true ->
  renderValue fuel field el originFile component settings expandList context
    depth s
  = into el
      (renderValue fuel field (createEl "" []) originFile component settings
         expandList context depth s).
Proof.
  intro Hf. destruct fuel as [|fuel]; [reflexivity|].
  cbn [renderValue]. unfold bind.
  rewrite renderValue_body_into; [|intros; apply renderValue_free; assumption|exact Hf].
  match goal with |- context [renderValue_body ?f ?o ?c ?st ?v ?e ?x ?cx ?d s] =>
    destruct (renderValue_body f o c st v e x cx d s) as [[? ?] ?|? ?|] end;
    reflexivity.
Qed.

(** The nodes a call adds do not depend on the element it adds them to. *)
Lemma renderValue_any_container fuel field el el' expandList context depth s
    out t s' :
  htmlFree originFile component settings depth (heap s) field = true ->
  renderValue fuel field el originFile component settings expandList context
    depth s = Done (appendNodes el out, t) s' ->
  renderValue fuel field el' originFile component settings expandList context
    depth s = Done (appendNodes el' out, t) s'.
Proof.
  intro Hf.
  rewrite (renderValue_into fuel field el), (renderValue_into fuel field el')
    by exact Hf.
  destruct (renderValue fuel field (createEl "" []) originFile component
              settings expandList context depth s) as [[c0 t0] s0| |];
    simpl; intro H; inversion H as [[Hout Ht Hs]].
  unfold appendNodes in Hout. apply app_inv_head in Hout. rewrite Hout.
  reflexivity.
Qed.

(** Nor does whether it throws, and in which state. *)
Lemma renderValue_throws_anywhere fuel field el el' expandList context depth
    s e s' :
  htmlFree originFile component settings depth (heap s) field = true ->
  renderValue fuel field el originFile component settings expandList context
    depth s = Thrown e s' ->
  renderValue fuel field el' originFile component settings expandList context
    depth s = Thrown e s'.
Proof.
  intro Hf.
  rewrite (renderValue_into fuel field el), (renderValue_into fuel field el')
    by exact Hf.
  destruct (renderValue fuel field (createEl "" []) originFile component
              settings expandList context depth s) as [[c0 t0] s0| |];
    simpl; intro H; [discriminate | exact H | discriminate].
Qed.

Lemma renderValue_appends fuel field container expandList context depth s
    container' t s' :
  htmlFree originFile component settings depth (heap s) field = true ->
  renderValue fuel field container originFile component settings expandList
    context depth s = Done (container', t) s' ->
  heap s' = heap s
  /\ exists out, container' = appendNodes container out /\ refsAll out = [].
Proof.
  intros Hf H.
  pose proof (renderValue_free fuel field container expandList context depth
                s Hf) as Hs.
  rewrite H in Hs. exact Hs.
Qed.

End FreeFacts.

(** ** Siblings are rendered one after the other *)

Section OrderFacts.
Context {host : Host}.
Variables (originFile : string) (component : Component)
          (settings : QuerySettings).

Variables (fuel depth : nat).

Local Abbreviation self :=
  (fun v el e c d =>
     renderValue fuel v el originFile component settings e c d).

Local Abbreviation li_of := (NElem "li" ["dataview-result-list-li"]).

Local Abbreviation free_below h :=
  (fun x =>
     htmlFree originFile component settings (depth + 1) h x = true).



Lemma sepNodes_plain outs :
  Forall (fun out => refsAll out = []) outs ->
  refsAll (sepNodes (NText ", ") outs) = [].
Proof.
  induction 1 as [|out outs Ho _ IH]; [reflexivity|].
  unfold sepNodes in *. simpl. rewrite refsAll_app, Ho, IH. reflexivity.
Qed.

Lemma joinNodes_plain outs :
  Forall (fun out => refsAll out = []) outs ->
  refsAll (joinNodes (NText ", ") outs) = [].
Proof.
  intro H. destruct H as [|out outs Ho Hs]; [reflexivity|].
  simpl. rewrite refsAll_app, Ho, (sepNodes_plain _ Hs). reflexivity.
Qed.


End OrderFacts.

(** ** The renderer: depth guard, order, frame and call arguments *)

Section RenderClaims.
Context {host : Host}.
Variables (originFile : string) (component : Component)
          (settings : QuerySettings).

(** C3 (as amended): the guard fires when the depth argument exceeds the
    maximum [k], that is from depth [k + 1] on, not at depth [k].  A call
    whose depth exceeds [k] appends the placeholder and returns, without a
    look at the value and without a call; a call at depth [k] or less
    dispatches on the value.  With fuel for the [k + 2] invocations that can
    nest, the call ends for every value and every heap, cyclic ones included,
    and no invocation it makes has a depth beyond [k + 1]. *)
Theorem depth_guard fuel field container expandList context depth s :
  renderValue (S fuel) field container originFile component settings
    expandList context depth s
  = (if Nat.ltb (maxRecursiveRenderDepth settings) depth
     then Done (appendText container "...",
                Call (mkInvocation field expandList context depth) [])
               s
     else bind
            (dispatch
               (fun v el e c d =>
                  renderValue fuel v el originFile component settings e c d)
               originFile component settings field container expandList
               context depth)
            (fun r =>
               ret (fst r,
                    Call (mkInvocation field expandList context depth)
                         (snd r)))
            s)
  /\ (enoughFuel settings depth <= S fuel ->
      outcome_sat False
        (renderValue (S fuel) field container originFile component settings
           expandList context depth s)
        (fun r _ =>
           deepest (snd r)
           <= Nat.max depth (S (maxRecursiveRenderDepth settings)))
        (fun _ => True)).
Proof.
  split.
  - cbn [renderValue]. unfold renderValue_body.
    destruct (Nat.ltb (maxRecursiveRenderDepth settings) depth);
      [reflexivity|].
    unfold bind.
    match goal with |- context [dispatch ?f ?o ?c ?st ?v ?el ?e ?cx ?d s] =>
      destruct (dispatch f o c st v el e cx d s) as [[c1 t1] s1| |] end;
      reflexivity.
  - intro Hfuel.
    eapply sat_conseq;
      [ apply (renderValue_sat originFile component settings False);
        right; exact Hfuel
      | | auto ].
    intros r s' (_ & _ & _ & _ & Hdeep). exact Hdeep.
Qed.


(** C10: in the call tree of a call of [renderValue], every invocation but
    the root was made with context ["list"], with the depth of its caller
    plus one and with its caller's [expandList]; the root carries the
    arguments of the call, so ["root"] can only be the context of the
    top-level invocation. *)
Theorem recursive_calls_nested fuel field container expandList context depth
    s :
  enoughFuel settings depth <= fuel ->
  outcome_sat False
    (renderValue fuel field container originFile component settings
       expandList context depth s)
    (fun r _ =>
       call_args (snd r) = mkInvocation field expandList context depth
       /\ wellNested (snd r) = true)
    (fun _ => True).
Proof.
  intro Hfuel.
  eapply sat_conseq;
    [ apply (renderValue_sat originFile component settings False);
      right; exact Hfuel
    | | auto ].
  intros r s' (_ & _ & Ha & Hw & _). auto.
Qed.


End RenderClaims.

(** ** A paragraph among text nodes *)

Section ParagraphFacts.
Variables (pcls : list string) (kids post : list Node).

Lemma querySelectorFrom_texts pre i :
  forallb isTextNode pre = true ->
  querySelectorFrom "p" (pre ++ NElem "p" pcls kids :: post) i
  = Some [i + List.length pre].
Proof.
  revert i. induction pre as [|n pre IH]; intros i Hpre.
  - simpl. rewrite Nat.add_0_r. reflexivity.
  - simpl in Hpre. apply andb_prop in Hpre as [Hn Hpre].
    destruct n as [data|t c ks|a]; try discriminate.
    simpl. rewrite (IH (S i) Hpre). simpl.
    rewrite Nat.add_succ_r. reflexivity.
Qed.

Lemma texts_not_children l :
  forallb isTextNode l = true -> filter isElementNode l = [].
Proof.
  induction l as [|n l IH]; intro H; [reflexivity|].
  simpl in H. apply andb_prop in H as [Hn Hl].
  destruct n; try discriminate. simpl. apply IH. exact Hl.
Qed.

Lemma children_texts pre :
  forallb isTextNode pre = true ->
  forallb isTextNode post = true ->
  filter isElementNode (pre ++ NElem "p" pcls kids :: post)
  = [NElem "p" pcls kids].
Proof.
  intros Hpre Hpost. rewrite filter_app. simpl.
  rewrite (texts_not_children pre Hpre), (texts_not_children post Hpost).
  reflexivity.
Qed.

Lemma childNodesAt_middle pre :
  childNodesAt (pre ++ NElem "p" pcls kids :: post) [List.length pre] = kids.
Proof. induction pre as [|n pre IH]; [reflexivity | exact IH]. Qed.

Lemma clearAt_middle pre :
  clearAt (pre ++ NElem "p" pcls kids :: post) [List.length pre]
  = pre ++ NElem "p" pcls [] :: post.
Proof.
  induction pre as [|n pre IH]; [reflexivity|].
  simpl in *. rewrite IH. reflexivity.
Qed.

Lemma removeNth_middle pre (n : Node) rest :
  removeNth (List.length pre) (pre ++ n :: rest) = pre ++ rest.
Proof.
  induction pre as [|m pre IH]; [reflexivity|].
  simpl. rewrite IH. reflexivity.
Qed.

End ParagraphFacts.

(** ** renderCompactMarkdown: the paragraph that is stripped *)

Section CompactFacts.
Context {host : Host}.
Variables (originFile : string) (component : Component)
          (settings : QuerySettings).

(** A paragraph that is the only child element is replaced by its child
    nodes, which go to the end of the element. *)
Lemma stripParagraph_sole_paragraph tag cls pre pcls kids post s :
  forallb isTextNode pre = true ->
  forallb isTextNode post = true ->
  stripParagraph (mkElement tag cls (pre ++ NElem "p" pcls kids :: post)) s
  = Done (mkElement tag cls (pre ++ post ++ kids)) s.
Proof.
  intros Hpre Hpost. unfold stripParagraph, querySelector, children.
  cbn [childNodes].
  rewrite (querySelectorFrom_texts pcls kids post pre 0 Hpre).
  rewrite (children_texts pcls kids post pre Hpre Hpost).
  cbn [List.length Nat.eqb Nat.add]. unfold unwrapParagraph.
  cbn [childNodes tagName classList].
  rewrite childNodesAt_middle, clearAt_middle, moveChildren_appends.
  unfold removeChild, appendNodes. cbn [childNodes tagName classList].
  replace (Nat.ltb (List.length pre)
             (List.length ((pre ++ NElem "p" pcls [] :: post) ++ kids)))
    with true
    by (symmetry; apply Nat.ltb_lt; rewrite !length_app; simpl; lia).
  rewrite <- app_assoc, <- app_comm_cons, removeNth_middle. reflexivity.
Qed.

(** [renderCompactMarkdown] is [stripParagraph] on a span with the rendered
    nodes, after the suspension. *)
Lemma renderCompactMarkdown_unfold markdown container s :
  renderCompactMarkdown markdown container originFile component s
  = bind
      (stripParagraph
         (mkElement "span" [] (renderMarkdown markdown originFile component)))
      (fun subcontainer => ret (appendChild container (node_of subcontainer)))
      (mkState (heap s) (clock s + renderLatency markdown)).
Proof. reflexivity. Qed.

(** Without a paragraph below it, the element stays as rendered. *)
Lemma stripParagraph_no_paragraph subcontainer s :
  querySelector subcontainer "p" = None ->
  stripParagraph subcontainer s = Done subcontainer s.
Proof. unfold stripParagraph. intros ->. reflexivity. Qed.

(** With no or several child elements, the element stays as rendered. *)
Lemma stripParagraph_not_single subcontainer s :
  List.length (children subcontainer) <> 1 ->
  stripParagraph subcontainer s = Done subcontainer s.
Proof.
  unfold stripParagraph. intro H. apply Nat.eqb_neq in H. rewrite H.
  destruct (querySelector subcontainer "p"); reflexivity.
Qed.

(** A single child element that is not a paragraph but has one inside: the
    inner paragraph is emptied into the element, and [removeChild] is then
    asked to remove a node that is not a child. *)
Lemma stripParagraph_nested tag cls wrapper wcls pcls kids s :
  wrapper <> "p" ->
  stripParagraph (mkElement tag cls [NElem wrapper wcls [NElem "p" pcls kids]])
    s
  = Thrown NotFoundError s.
Proof.
  intro Hw. apply String.eqb_neq in Hw.
  unfold stripParagraph, querySelector. simpl. rewrite Hw. simpl.
  reflexivity.
Qed.

(** A single child element that wraps a paragraph, as a block quote does:
    [renderCompactMarkdown] throws. *)
Lemma nested_paragraph_throws markdown container wrapper wcls pcls kids s :
  renderMarkdown markdown originFile component
    = [NElem wrapper wcls [NElem "p" pcls kids]] ->
  wrapper <> "p" ->
  renderCompactMarkdown markdown container originFile component s
  = Thrown NotFoundError
      (mkState (heap s) (clock s + renderLatency markdown)).
Proof.
  intros Hr Hw. rewrite renderCompactMarkdown_unfold, Hr. unfold bind.
  rewrite (stripParagraph_nested _ _ _ _ _ _ _ Hw). reflexivity.
Qed.

(** C6 (as amended): after the renderer has completed, if the span has
    exactly one child element and that child is a paragraph ([p]), the child
    nodes of the paragraph are moved to the end of the span and the paragraph
    is removed; if there is no paragraph anywhere in the span, or the span
    does not have exactly one child element, the rendered content is left as
    it is.  Block elements other than [p] are not unwrapped. *)
Theorem sole_paragraph_stripped markdown container s :
  (forall pre pcls kids post,
      renderMarkdown markdown originFile component
        = pre ++ NElem "p" pcls kids :: post ->
      forallb isTextNode pre = true ->
      forallb isTextNode post = true ->
      renderCompactMarkdown markdown container originFile component s
      = Done (appendChild container (NElem "span" [] (pre ++ post ++ kids)))
             (mkState (heap s) (clock s + renderLatency markdown)))
  /\ (querySelectorFrom "p"
        (renderMarkdown markdown originFile component) 0 = None
      \/ List.length
           (filter isElementNode
              (renderMarkdown markdown originFile component)) <> 1 ->
      renderCompactMarkdown markdown container originFile component s
      = Done (appendChild container
                (NElem "span" []
                   (renderMarkdown markdown originFile component)))
             (mkState (heap s) (clock s + renderLatency markdown))).
Proof.
  split.
  - intros pre pcls kids post Hr Hpre Hpost.
    rewrite renderCompactMarkdown_unfold, Hr. unfold bind.
    rewrite (stripParagraph_sole_paragraph _ _ _ _ _ _ _ Hpre Hpost).
    reflexivity.
  - intros [Hnone | Hmany]; rewrite renderCompactMarkdown_unfold; unfold bind.
    + rewrite stripParagraph_no_paragraph by exact Hnone. reflexivity.
    + rewrite stripParagraph_not_single by exact Hmany. reflexivity.
Qed.

(** C8 (the input on which the code fails the claim): a string within the
    depth bound whose markdown renders as one element around a paragraph;
    [renderValue] does not return, it throws [NotFoundError]. *)
Theorem string_render_throws fuel str container wrapper wcls pcls kids
    expandList context depth s :
  renderMarkdown str originFile component
    = [NElem wrapper wcls [NElem "p" pcls kids]] ->
  wrapper <> "p" ->
  depth <= maxRecursiveRenderDepth settings ->
  renderValue (S fuel) (VString str) container originFile component settings
    expandList context depth s
  = Thrown NotFoundError (mkState (heap s) (clock s + renderLatency str)).
Proof.
  intros Hr Hw Hd. cbn [renderValue]. unfold renderValue_body.
  rewrite (depth_ok _ _ Hd). cbn [dispatch]. simpl String.append.
  unfold leaf, renderCompactMarkdown, awaitRenderMarkdown.
  unfold bind at 1. unfold bind at 1. unfold bind at 1. unfold bind at 2.
  unfold suspend, ret at 1. unfold bind at 1. rewrite Hr.
  simpl childNodes. simpl app.
  unfold createSpan, createEl. simpl tagName. simpl classList.
  rewrite (stripParagraph_nested _ _ _ _ _ _ _ Hw). reflexivity.
Qed.

(** A value that no predicate recognises is rendered as a dump, when
    [JSON.stringify] gives one. *)
Lemma unrecognized_dumped fuel x dump container expandList context depth s :
  depth <= maxRecursiveRenderDepth settings ->
  JSON_stringify x = Some dump ->
  renderValue (S fuel) (VForeign x) container originFile component settings
    expandList context depth s
  = Done (appendText container ("Unrecognized: " ++ dump)%string,
          Call (mkInvocation (VForeign x) expandList context depth) [])
         s.
Proof.
  intros Hd Hj. cbn [renderValue]. unfold renderValue_body.
  rewrite (depth_ok _ _ Hd). cbn [dispatch]. rewrite Hj. reflexivity.
Qed.

(** When [JSON.stringify] throws, as on a [BigInt], so does the render. *)
Lemma unrecognized_throws fuel x container expandList context depth s :
  depth <= maxRecursiveRenderDepth settings ->
  JSON_stringify x = None ->
  renderValue (S fuel) (VForeign x) container originFile component settings
    expandList context depth s
  = Thrown TypeError s.
Proof.
  intros Hd Hj. cbn [renderValue]. unfold renderValue_body.
  rewrite (depth_ok _ _ Hd). cbn [dispatch]. rewrite Hj. reflexivity.
Qed.

End CompactFacts.

(** ** The worker entry point *)

Section WorkerClaims.
Variables (Metadata ParseResult TransferEncoding JSError : Type).
Variable runImport : string -> string -> Metadata -> JSError + ParseResult.
Variable transferable : ParseResult -> JSError + TransferEncoding.

Local Abbreviation onmessage :=
  (ImportEntry.onmessage Metadata ParseResult TransferEncoding JSError
     runImport transferable).

(** The handler posts at most one message, whatever happens. *)
Lemma onmessage_at_most_one evt : List.length (fst (onmessage evt)) <= 1.
Proof.
  unfold ImportEntry.onmessage.
  destruct (runImport _ _ _) as [e|r]; [simpl; lia|].
  destruct (transferable r); simpl; lia.
Qed.

(** C7: for a job message on which the parse routine returns [r] and the
    encoder returns [encoded], the handler posts exactly one message, whose
    path is the path of the job and whose result is [encoded], the transfer
    encoding of the output of the parse routine for the path, contents and
    metadata of the job. *)
Theorem onmessage_posts_result evt r encoded :
  runImport (ImportEntry.evt_path _ evt) (ImportEntry.evt_contents _ evt)
            (ImportEntry.evt_metadata _ evt) = inr r ->
  transferable r = inr encoded ->
  onmessage evt
  = ([ImportEntry.mkResult _ (ImportEntry.evt_path _ evt) encoded],
     ImportEntry.Fulfilled _).
Proof.
  intros Hr He. unfold ImportEntry.onmessage.
  rewrite Hr, He. reflexivity.
Qed.

(** C2 (as amended): an error raised by the parse routine is not caught:
    the handler posts no message and its promise is rejected with that
    error. *)
Theorem onmessage_parse_error_unanswered evt e :
  runImport (ImportEntry.evt_path _ evt) (ImportEntry.evt_contents _ evt)
            (ImportEntry.evt_metadata _ evt) = inl e ->
  onmessage evt = ([], ImportEntry.Rejected _ e).
Proof.
  intro Hr. unfold ImportEntry.onmessage. rewrite Hr.
  reflexivity.
Qed.

End WorkerClaims.


(** ** Objects: entries in order, the empty object *)

Section ObjectFacts.
Context {host : Host}.
Variables (originFile : string) (component : Component)
          (settings : QuerySettings).

Local Abbreviation object_li :=
  (NElem "li" ["dataview"; "dataview-li"; "dataview-result-object-li"]).

(** X2: within the depth bound, an object without entries that is not an
    instance of a class (no constructor, a constructor without a name, or
    [Object]) is rendered in inline mode as exactly the text
    [<empty object>] and in expand-list mode as an empty [ul] element;
    neither makes a recursive call. *)
Theorem empty_object_rendering fuel a ctor container expandList context depth
    s :
  heap s a = ObjectCell ctor [] ->
  isClassInstance ctor = false ->
  depth <= maxRecursiveRenderDepth settings ->
  renderValue (S fuel) (VRef a) container originFile component settings
    expandList context depth s
  = Done
      (if expandList
       then appendChild container
              (NElem "ul"
                 ["dataview"; "dataview-ul"; "dataview-result-object-ul"] [])
       else appendText container "<empty object>",
       Call (mkInvocation (VRef a) expandList context depth) [])
      s.
Proof.
  intros Hcell Hplain Hd.
  rewrite (renderValue_ref _ _ _ _ _ _ _ _ _ _ Hd), Hcell.
  unfold renderObject. rewrite Hplain. destruct expandList; reflexivity.
Qed.

Variables (fuel depth : nat).

Local Abbreviation self :=
  (fun v el e c d =>
     renderValue fuel v el originFile component settings e c d).

Local Abbreviation free_below h :=
  (fun e : string * Literal =>
     htmlFree originFile component settings (depth + 1) h (snd e) = true).

Lemma renderObject_expand_order ctor entries container s :
  isClassInstance ctor = false ->
  Forall (free_below (heap s)) entries ->
  match renderObject self ctor entries container true depth s with
  | Done (c', calls) s' =>
      exists outs,
        siblings fuel originFile component settings true (depth + 1)
          (map snd entries) s outs calls s'
        /\ c' = appendNodes container
                  [NElem "ul"
                     ["dataview"; "dataview-ul"; "dataview-result-object-ul"]
                     (map object_li (keyedOuts (map fst entries) outs))]
  | Thrown e s' =>
      siblingsThrow fuel originFile component settings true (depth + 1)
        (map snd entries) s e s'
  | OutOfFuel => True
  end.
Proof.
  intros Hplain Hfree. unfold renderObject. rewrite Hplain. cbv iota.
  match goal with |- context [for_of _ ?b _] =>
    remember b as body eqn:Hbody end.
  assert (Hgen : forall es list0 calls0 s0,
             heap s0 = heap s ->
             Forall (free_below (heap s)) es ->
             match for_of es body (list0, calls0) s0 with
             | Done (list1, calls1) s2 =>
                 exists outs ts,
                   siblings fuel originFile component settings true
                     (depth + 1) (map snd es) s0 outs ts s2
                   /\ list1 = appendNodes list0
                                (map object_li
                                   (keyedOuts (map fst es) outs))
                   /\ calls1 = calls0 ++ ts
                   /\ refsAll (map object_li (keyedOuts (map fst es) outs))
                      = []
             | Thrown e s2 =>
                 siblingsThrow fuel originFile component settings true
                   (depth + 1) (map snd es) s0 e s2
             | OutOfFuel => True
             end).
  { induction es as [|[key value] es IH]; intros list0 calls0 s0 Hh Hes.
    - simpl. exists [], []. split; [constructor|].
      simpl. rewrite appendNodes_nil, app_nil_r. auto.
    - pose proof (Forall_inv Hes) as Hv.
      pose proof (Forall_inv_tail Hes) as Hes'.
      cbv beta in Hv. cbn [snd] in Hv. rewrite <- Hh in Hv.
      set (li0 := appendText
                    (createEl "li"
                       ["dataview"; "dataview-li";
                        "dataview-result-object-li"])
                    (key ++ ": ")).
      assert (Hstep :
                body (key, value) (list0, calls0) s0
                = match renderValue fuel value li0 originFile component
                          settings true CtxList (depth + 1) s0 with
                  | Done (li, t) s4 =>
                      Done (attach list0 (node_of li), calls0 ++ [t]) s4
                  | Thrown e s4 => Thrown e s4
                  | OutOfFuel => OutOfFuel
                  end).
      { rewrite Hbody. unfold bind. fold li0.
        destruct (renderValue fuel value li0 originFile component settings
                    true CtxList (depth + 1) s0) as [[? ?] ?| |];
          reflexivity. }
      simpl for_of. unfold bind at 1. rewrite Hstep. clear Hstep.
      destruct (renderValue fuel value li0 originFile component settings
                  true CtxList (depth + 1) s0)
        as [[li t] s4|e s4|] eqn:Hself; [| |exact I].
      + destruct (renderValue_appends _ _ _ _ _ _ _ _ _ _ _ _ _ Hv Hself)
          as (Hh4 & out & Hout & Hr).
        subst li.
        assert (Hli : refs (object_li (NText (key ++ ": ") :: out)) = []).
        { rewrite refs_elem. simpl. exact Hr. }
        specialize (IH (attach list0 (node_of (appendNodes li0 out)))
                       (calls0 ++ [t]) s4 (eq_trans Hh4 Hh) Hes').
        destruct (for_of es body _ s4) as [[list1 calls1] s2|e s2|];
          [| |exact I].
        * destruct IH as (outs & ts & Hs & Hl & Hc & Hrs).
          exists (out :: outs), (t :: ts). split; [|split; [|split]].
          -- simpl. econstructor; [|exact Hs]. intro el0.
             eapply renderValue_any_container; [exact Hv | exact Hself].
          -- rewrite Hl.
             change (node_of (appendNodes li0 out))
               with (object_li (NText (key ++ ": ") :: out)).
             rewrite (attach_plain _ _ Hli), appendNodes_app. reflexivity.
          -- rewrite Hc, <- app_assoc. reflexivity.
          -- cbn [map fst snd combine keyedOuts].
             change (refs (object_li (NText (key ++ ": ") :: out))
                     ++ refsAll (map object_li
                                   (keyedOuts (map fst es) outs)) = []).
             rewrite Hli, Hrs. reflexivity.
        * simpl. eapply siblingsThrow_later; [|exact IH]. intro el0.
          eapply renderValue_any_container; [exact Hv | exact Hself].
      + simpl. apply siblingsThrow_here. intro el0.
        eapply renderValue_throws_anywhere; [exact Hv | exact Hself]. }
  unfold bind.
  specialize (Hgen entries
                (createEl "ul"
                   ["dataview"; "dataview-ul"; "dataview-result-object-ul"])
                [] s eq_refl Hfree).
  destruct (for_of entries body _ s) as [[list1 calls1] s2|e s2|];
    [| exact Hgen | exact I].
  destruct Hgen as (outs & ts & Hs & Hl & Hc & Hrs).
  unfold ret. simpl in Hc. subst. exists outs. split; [exact Hs|].
  apply attach_plain. rewrite refs_elem. exact Hrs.
Qed.

Lemma renderObject_inline_order ctor entries container s :
  isClassInstance ctor = false ->
  Forall (free_below (heap s)) entries ->
  match renderObject self ctor entries container false depth s with
  | Done (c', calls) s' =>
      exists outs,
        siblings fuel originFile component settings false (depth + 1)
          (map snd entries) s outs calls s'
        /\ c' = appendNodes container
                  [match entries with
                   | [] => NText "<empty object>"
                   | _ :: _ =>
                       NElem "span"
                         ["dataview"; "dataview-result-object-span"]
                         (joinNodes (NText ", ")
                            (keyedOuts (map fst entries) outs))
                   end]
  | Thrown e s' =>
      siblingsThrow fuel originFile component settings false (depth + 1)
        (map snd entries) s e s'
  | OutOfFuel => True
  end.
Proof.
  intros Hplain Hfree. unfold renderObject. rewrite Hplain.
  destruct entries as [|e0 es0].
  { simpl. exists []. split; [constructor|]. reflexivity. }
  cbn [List.length Nat.eqb]. cbv iota.
  match goal with |- context [for_of _ ?b _] =>
    remember b as body eqn:Hbody end.
  assert (Hgen : forall es span0 (first0 : bool) calls0 s0,
             heap s0 = heap s ->
             Forall (free_below (heap s)) es ->
             match for_of es body (span0, first0, calls0) s0 with
             | Done (span1, first1, calls1) s2 =>
                 exists outs ts,
                   siblings fuel originFile component settings false
                     (depth + 1) (map snd es) s0 outs ts s2
                   /\ span1 = appendNodes span0
                                (if first0
                                 then joinNodes (NText ", ")
                                        (keyedOuts (map fst es) outs)
                                 else sepNodes (NText ", ")
                                        (keyedOuts (map fst es) outs))
                   /\ calls1 = calls0 ++ ts
                   /\ Forall (fun out => refsAll out = [])
                        (keyedOuts (map fst es) outs)
             | Thrown e s2 =>
                 siblingsThrow fuel originFile component settings false
                   (depth + 1) (map snd es) s0 e s2
             | OutOfFuel => True
             end).
  { induction es as [|[key value] es IH];
      intros span0 first0 calls0 s0 Hh Hes.
    - simpl. exists [], []. split; [constructor|].
      destruct first0; simpl; rewrite appendNodes_nil, app_nil_r; auto.
    - pose proof (Forall_inv Hes) as Hv.
      pose proof (Forall_inv_tail Hes) as Hes'.
      cbv beta in Hv. cbn [snd] in Hv. rewrite <- Hh in Hv.
      set (el0 := appendText
                    (if first0 then span0 else appendText span0 ", ")
                    (key ++ ": ")).
      assert (Hstep :
                body (key, value) (span0, first0, calls0) s0
                = match renderValue fuel value el0 originFile component
                          settings false CtxList (depth + 1) s0 with
                  | Done (span3, t) s4 =>
                      Done (span3, false, calls0 ++ [t]) s4
                  | Thrown e s4 => Thrown e s4
                  | OutOfFuel => OutOfFuel
                  end).
      { rewrite Hbody. unfold bind. fold el0.
        destruct (renderValue fuel value el0 originFile component settings
                    false CtxList (depth + 1) s0) as [[? ?] ?| |];
          reflexivity. }
      simpl for_of. unfold bind at 1. rewrite Hstep. clear Hstep.
      destruct (renderValue fuel value el0 originFile component settings
                  false CtxList (depth + 1) s0)
        as [[span3 t] s4|e s4|] eqn:Hself; [| |exact I].
      + destruct (renderValue_appends _ _ _ _ _ _ _ _ _ _ _ _ _ Hv Hself)
          as (Hh4 & out & Hout & Hr).
        subst span3.
        specialize (IH (appendNodes el0 out) false (calls0 ++ [t]) s4
                       (eq_trans Hh4 Hh) Hes').
        destruct (for_of es body _ s4) as [[[span1 first1] calls1] s2|e s2|];
          [| |exact I].
        * destruct IH as (outs & ts & Hs & Hl & Hc & Hrs).
          exists (out :: outs), (t :: ts). split; [|split; [|split]].
          -- simpl. econstructor; [|exact Hs]. intro el1.
             eapply renderValue_any_container; [exact Hv | exact Hself].
          -- rewrite Hl. unfold el0. destruct first0; simpl.
             ++ rewrite appendText_nodes, !appendNodes_app. reflexivity.
             ++ rewrite !appendText_nodes, !appendNodes_app. reflexivity.
          -- rewrite Hc, <- app_assoc. reflexivity.
          -- simpl. constructor; [simpl; exact Hr | exact Hrs].
        * simpl. eapply siblingsThrow_later; [|exact IH]. intro el1.
          eapply renderValue_any_container; [exact Hv | exact Hself].
      + simpl. apply siblingsThrow_here. intro el1.
        eapply renderValue_throws_anywhere; [exact Hv | exact Hself]. }
  unfold bind.
  specialize (Hgen (e0 :: es0)
                (createEl "span" ["dataview"; "dataview-result-object-span"])
                true [] s eq_refl Hfree).
  destruct (for_of (e0 :: es0) body _ s)
    as [[[span1 first1] calls1] s2|e s2|]; [| exact Hgen | exact I].
  destruct Hgen as (outs & ts & Hs & Hl & Hc & Hrs).
  unfold ret. simpl in Hc. subst. exists outs. split; [exact Hs|].
  apply attach_plain. rewrite refs_elem.
  apply (joinNodes_plain _ Hrs).
Qed.

End ObjectFacts.

Section ObjectOrder.
Context {host : Host}.
Variables (originFile : string) (component : Component)
          (settings : QuerySettings).

(** X1: the values of the entries of an object that is not an instance of a
    class, none of them an HTML element nor holding one, are rendered one
    after the other in the order of [Object.entries], each call starting in
    the state in which the call before it returned.  When the render
    returns, each entry shows as its key and [": "] followed by the nodes of
    its value, in a list item of the [ul] (expand mode) or in the [span],
    separated by [", "] (inline mode).  When it throws, the values before
    the one whose render threw were rendered in that order, and the ones
    after it were not rendered.  With enough fuel the call returns or
    throws. *)
Theorem object_entries_in_order fuel a ctor entries container expandList
    context depth s :
  heap s a = ObjectCell ctor entries ->
  isClassInstance ctor = false ->
  depth <= maxRecursiveRenderDepth settings ->
  enoughFuel settings depth <= S fuel ->
  htmlFree originFile component settings depth (heap s) (VRef a) = true ->
  match renderValue (S fuel) (VRef a) container originFile component settings
          expandList context depth s with
  | Done r s' =>
      exists outs ts,
        siblings fuel originFile component settings expandList (depth + 1)
          (map snd entries) s outs ts s'
        /\ snd r = Call (mkInvocation (VRef a) expandList context depth) ts
        /\ fst r
           = appendNodes container
               [if expandList
                then NElem "ul"
                       ["dataview"; "dataview-ul";
                        "dataview-result-object-ul"]
                       (map (NElem "li"
                               ["dataview"; "dataview-li";
                                "dataview-result-object-li"])
                            (keyedOuts (map fst entries) outs))
                else match entries with
                     | [] => NText "<empty object>"
                     | _ :: _ =>
                         NElem "span"
                           ["dataview"; "dataview-result-object-span"]
                           (joinNodes (NText ", ")
                              (keyedOuts (map fst entries) outs))
                     end]
  | Thrown e s' =>
      siblingsThrow fuel originFile component settings expandList
        (depth + 1) (map snd entries) s e s'
  | OutOfFuel => False
  end.
Proof.
  intros Hcell Hplain Hd Hfuel Hfree.
  pose proof (renderValue_ends originFile component settings (S fuel)
                (VRef a) container expandList context depth s Hfuel) as Hends.
  destruct (everyValue_step settings _ depth (heap s) (VRef a) Hd Hfree)
    as [_ Hbelow].
  rewrite (renderValue_ref _ _ _ _ _ _ _ _ _ _ Hd) in *.
  rewrite Hcell in *. specialize (Hbelow Hplain).
  unfold bind in *.
  destruct expandList.
  - pose proof (renderObject_expand_order originFile component settings fuel
                  depth ctor entries container s Hplain Hbelow) as Hord.
    destruct (renderObject _ ctor entries container true depth s)
      as [[c' calls] s'|e s'|]; simpl; [| exact Hord | congruence].
    destruct Hord as (outs & Hs & Hc). exists outs, calls. auto.
  - pose proof (renderObject_inline_order originFile component settings fuel
                  depth ctor entries container s Hplain Hbelow) as Hord.
    destruct (renderObject _ ctor entries container false depth s)
      as [[c' calls] s'|e s'|]; simpl; [| exact Hord | congruence].
    destruct Hord as (outs & Hs & Hc). exists outs, calls. auto.
Qed.

End ObjectOrder.

(** ** renderCompactMarkdown: when it returns and when it throws *)

Section CompactOutcome.
Context {host : Host}.
Variables (originFile : string) (component : Component).

Lemma querySelectorFrom_shape sel ks :
  forall i p,
    querySelectorFrom sel ks i = Some p ->
    exists j rest, p = j :: rest /\ i <= j /\ j < i + List.length ks.
Proof.
  induction ks as [|k ks IH]; intros i p H; [discriminate|].
  simpl in H. destruct (querySelectorNode sel k) as [q|].
  - inversion H; subst. exists i, q. simpl. repeat split; lia.
  - apply IH in H as (j & rest & Hp & Hi & Hj).
    exists j, rest. simpl. repeat split; [exact Hp | lia | lia].
Qed.

Lemma length_updateNth {A : Type} (f : A -> A) i (l : list A) :
  List.length (updateNth f i l) = List.length l.
Proof.
  revert i. induction l as [|x l IH]; intros [|i]; simpl; auto.
Qed.

Lemma length_clearAt ks p : List.length (clearAt ks p) = List.length ks.
Proof.
  destruct p as [|i [|j p]]; simpl; [reflexivity| |];
    apply length_updateNth.
Qed.

Lemma renderCompactMarkdown_cases markdown container s :
  if stripsCleanly (renderMarkdown markdown originFile component)
  then exists kids,
      renderCompactMarkdown markdown container originFile component s
      = Done (appendChild container (NElem "span" [] kids))
             (mkState (heap s) (clock s + renderLatency markdown))
  else renderCompactMarkdown markdown container originFile component s
       = Thrown NotFoundError
           (mkState (heap s) (clock s + renderLatency markdown)).
Proof.
  rewrite renderCompactMarkdown_unfold. unfold bind, stripParagraph.
  unfold stripsCleanly, querySelector, children. cbn [childNodes].
  set (rendered := renderMarkdown markdown originFile component).
  destruct (querySelectorFrom "p" rendered 0) as [p|] eqn:Hq.
  - destruct (Nat.eqb (List.length (filter isElementNode rendered)) 1).
    + cbn [negb orb].
      destruct (querySelectorFrom_shape _ _ _ _ Hq) as (j & rest & -> & _ & Hj).
      rewrite unwrapParagraph_span. destruct rest as [|r rest].
      * cbn [List.length Nat.eqb]. unfold removeChild. cbn [childNodes].
        replace (Nat.ltb j
                   (List.length
                      (clearAt rendered [j] ++ childNodesAt rendered [j])))
          with true
          by (symmetry; apply Nat.ltb_lt;
              rewrite length_app, length_clearAt; simpl in Hj; lia).
        eexists. reflexivity.
      * reflexivity.
    + cbn [negb orb]. eexists. reflexivity.
  - eexists. reflexivity.
Qed.

(** X3: after the renderer has completed, [renderCompactMarkdown] either
    returns with exactly one node added to the container, a [span] without
    classes, or throws [NotFoundError]; it throws exactly when the rendered
    nodes have one child element and the first paragraph in document order is
    not that child but lies deeper. *)
Theorem compact_markdown_outcome markdown container s :
  if stripsCleanly (renderMarkdown markdown originFile component)
  then exists kids,
      renderCompactMarkdown markdown container originFile component s
      = Done (appendChild container (NElem "span" [] kids))
             (mkState (heap s) (clock s + renderLatency markdown))
  else renderCompactMarkdown markdown container originFile component s
       = Thrown NotFoundError
           (mkState (heap s) (clock s + renderLatency markdown)).
Proof. apply renderCompactMarkdown_cases. Qed.

End CompactOutcome.

(** ** No error when no value stands in the way *)

Section ReturnFacts.
Context {host : Host}.
Variables (originFile : string) (component : Component)
          (settings : QuerySettings).

Local Abbreviation noThrow o s :=
  (outcome_sat True o (fun _ s' => sameValues (heap s) (heap s'))
     (fun _ => False)).

Lemma forallb_eq {A : Type} (f g : A -> bool) l :
  (forall x, f x = g x) -> forallb f l = forallb g l.
Proof.
  intro H. induction l as [|x l IH]; [reflexivity|].
  simpl. rewrite H, IH. reflexivity.
Qed.

(** Whether a value is free of errors depends on the arrays and objects of
    the heap and on which HTML elements are or hold the container. *)
Lemma errorFree_same h h' :
  sameValues h h' ->
  forall levels v,
    everyValue (renderable originFile component settings) levels h' v
    = everyValue (renderable originFile component settings) levels h v.
Proof.
  intros Hs. induction levels as [|n IH]; intro v; [reflexivity|].
  cbn [everyValue]. destruct v; try reflexivity.
  destruct (Hs a) as [Hh Hn].
  assert (Hr : renderable originFile component settings h' (VRef a)
               = renderable originFile component settings h (VRef a)).
  { unfold renderable.
    destruct (h a) as [els|els|ctor entries|e hm holds];
      try (rewrite (Hn eq_refl); reflexivity).
    destruct (h' a) as [| | |e' hm' holds']; try discriminate.
    inversion Hh. reflexivity. }
  rewrite Hr. f_equal.
  destruct (h a) as [els|els|ctor entries|e hm holds] eqn:Ha; simpl in *.
  - rewrite (Hn eq_refl), (forallb_eq _ _ els IH). reflexivity.
  - rewrite (Hn eq_refl), (forallb_eq _ _ els IH). reflexivity.
  - rewrite (Hn eq_refl),
      (forallb_eq _ _ entries (fun x => IH (snd x))).
    reflexivity.
  - destruct (h' a) as [| | |e' hm' holds']; try discriminate.
    reflexivity.
Qed.

Lemma renderCompactMarkdown_noThrow markdown container s :
  stripsCleanly (renderMarkdown markdown originFile component) = true ->
  noThrow (renderCompactMarkdown markdown container originFile component s) s.
Proof.
  intro Hc.
  pose proof (renderCompactMarkdown_cases originFile component markdown
                container s) as H.
  rewrite Hc in H. destruct H as [kids ->]. simpl. apply sameValues_refl.
Qed.

Lemma for_of_noThrow {A Acc : Type} (good : Heap -> A -> Prop)
    (body : A -> Acc -> M Acc) xs :
  (forall h h' x, sameValues h h' -> good h x -> good h' x) ->
  (forall x acc s1, good (heap s1) x -> noThrow (body x acc s1) s1) ->
  forall acc s,
    Forall (good (heap s)) xs -> noThrow (for_of xs body acc s) s.
Proof.
  intros Hgood Hb. induction xs as [|x xs IH]; intros acc s Hxs.
  - simpl. apply sameValues_refl.
  - simpl for_of. apply sat_bind.
    eapply sat_conseq; [apply Hb; apply (Forall_inv Hxs) | | auto].
    intros acc1 s1 Hs1. simpl.
    eapply sat_conseq; [apply IH | | auto].
    + eapply Forall_impl; [|apply (Forall_inv_tail Hxs)].
      intros y Hy. eapply Hgood; [exact Hs1 | exact Hy].
    + intros acc2 s2 Hs2. exact (sameValues_trans _ _ _ Hs1 Hs2).
Qed.

Section ReturnBody.

Variable self : Literal -> Element -> bool -> ValueRenderContext -> nat ->
                M (Element * CallTree).
Variable depth : nat.

Hypothesis self_noThrow :
  forall v el e c s1,
    errorFree originFile component settings (depth + 1) (heap s1) v = true ->
    noThrow (self v el e c (depth + 1) s1) s1.

Local Abbreviation good :=
  (fun h v =>
     errorFree originFile component settings (depth + 1) h v = true).

Lemma good_same h h' (v : Literal) :
  sameValues h h' -> good h v -> good h' v.
Proof.
  intros Hs Hv. unfold errorFree in *.
  rewrite (errorFree_same h h' Hs). exact Hv.
Qed.

Ltac call_self Hx :=
  apply sat_bind;
  eapply sat_conseq; [apply self_noThrow; exact Hx | | auto];
  let Hs := fresh "Hs" in
  intros [? ?] ? Hs; exact Hs.

Ltac after_loop_same :=
  let Hs := fresh "Hs" in
  intros ? ? Hs; repeat match goal with p : (_ * _)%type |- _ => destruct p end;
  exact Hs.

Lemma renderArray_noThrow elements container expandList context s :
  Forall (good (heap s)) elements ->
  noThrow (renderArray self elements container expandList context depth s) s.
Proof.
  intro Hxs. unfold renderArray. destruct expandList.
  - apply sat_bind.
    eapply sat_conseq;
      [ apply (for_of_noThrow good); [apply good_same | | exact Hxs]
      | after_loop_same | auto ].
    intros child [list calls] s1 Hx. cbv zeta. call_self Hx.
  - destruct (Nat.eqb (List.length elements) 0);
      [simpl; apply sameValues_refl|].
    apply sat_bind.
    eapply sat_conseq;
      [ apply (for_of_noThrow good); [apply good_same | | exact Hxs]
      | after_loop_same | auto ].
    intros val [[span first] calls] s1 Hx. cbv zeta. call_self Hx.
Qed.

Lemma renderObject_noThrow ctor entries container expandList s :
  (isClassInstance ctor = false ->
   Forall (fun e => good (heap s) (snd e)) entries) ->
  noThrow (renderObject self ctor entries container expandList depth s) s.
Proof.
  intro Hxs. unfold renderObject.
  destruct (isClassInstance ctor); [simpl; apply sameValues_refl|].
  specialize (Hxs eq_refl).
  destruct expandList.
  - apply sat_bind.
    eapply sat_conseq;
      [ apply (for_of_noThrow (fun h e => good h (snd e)));
        [intros h h' x; apply good_same | | exact Hxs]
      | after_loop_same | auto ].
    intros [key value] [list calls] s1 Hx. cbv zeta. call_self Hx.
  - destruct (Nat.eqb (List.length entries) 0);
      [simpl; apply sameValues_refl|].
    apply sat_bind.
    eapply sat_conseq;
      [ apply (for_of_noThrow (fun h e => good h (snd e)));
        [intros h h' x; apply good_same | | exact Hxs]
      | after_loop_same | auto ].
    intros [key value] [[span first] calls] s1 Hx. cbv zeta. call_self Hx.
Qed.

Lemma renderValue_body_noThrow field container expandList context s :
  errorFree originFile component settings depth (heap s) field = true ->
  noThrow (renderValue_body self originFile component settings field
             container expandList context depth s) s.
Proof.
  intro Hf. unfold renderValue_body.
  destruct (Nat.ltb (maxRecursiveRenderDepth settings) depth) eqn:Hd;
    [simpl; apply sameValues_refl|].
  apply Nat.ltb_ge in Hd.
  destruct (everyValue_step settings _ depth (heap s) field Hd Hf)
    as [Hp Hbelow].
  destruct field; cbn [dispatch]; try (simpl; apply sameValues_refl);
    try (unfold leaf; apply sat_bind;
         eapply sat_conseq;
           [apply renderCompactMarkdown_noThrow; exact Hp | | auto];
         intros c' s' Hs; exact Hs).
  - apply sat_bind. unfold readCell. simpl. unfold renderable in Hp.
    destruct (heap s a) as [elements|elements|ctor entries|el home holds]
      eqn:Ha.
    + apply renderArray_noThrow. exact Hbelow.
    + apply renderArray_noThrow. exact Hbelow.
    + apply renderObject_noThrow. exact Hbelow.
    + destruct holds; [discriminate|].
      pose proof (appendHtml_sat True a el home false container s Ha) as Hs.
      unfold leaf. apply sat_bind. unfold appendHtml in *. simpl in *.
      exact (proj1 Hs).
  - unfold renderable in Hp.
    destruct (JSON_stringify x); [simpl; apply sameValues_refl|discriminate].
Qed.

End ReturnBody.

Lemma renderValue_noThrow fuel :
  forall field container expandList context depth s,
    errorFree originFile component settings depth (heap s) field = true ->
    noThrow (renderValue fuel field container originFile component settings
               expandList context depth s) s.
Proof.
  induction fuel as [|fuel IH];
    intros field container expandList context depth s Hf; [exact I|].
  cbn [renderValue]. apply sat_bind.
  eapply sat_conseq; [apply renderValue_body_noThrow; [|exact Hf] | | auto].
  - intros v el e c s1 Hv. apply IH. exact Hv.
  - intros [c' calls] s1 Hs. exact Hs.
Qed.

(** With the fuel to end, the render of a value that is free of errors
    returns. *)
Lemma renderValue_returns fuel field container expandList context depth s :
  errorFree originFile component settings depth (heap s) field = true ->
  enoughFuel settings depth <= fuel ->
  exists container' t s',
    renderValue fuel field container originFile component settings
      expandList context depth s
    = Done (container', t) s'
    /\ sameValues (heap s) (heap s').
Proof.
  intros Hf Hfuel.
  pose proof (renderValue_noThrow fuel field container expandList context
                depth s Hf) as H.
  pose proof (renderValue_ends originFile component settings fuel field
                container expandList context depth s Hfuel) as He.
  destruct (renderValue fuel field container originFile component settings
              expandList context depth s) as [[c' t] s'|e s'|];
    [eauto 6 | contradiction | congruence].
Qed.

End ReturnFacts.

(** X4: a call of [renderValue] with the fuel to end returns, it surfaces no
    error, when nothing stands in the way of the values it dispatches on:
    the markdown of each string, number, boolean, link and null does not
    render as a single child element with the first paragraph nested inside
    it, [JSON.stringify] does not throw on the values that no predicate
    recognises, and no HTML element among them is the container or holds
    it. *)
Theorem renders_without_error {host : Host} (originFile : string)
    (component : Component) (settings : QuerySettings) fuel field container
    expandList context depth s :
  errorFree originFile component settings depth (heap s) field = true ->
  enoughFuel settings depth <= fuel ->
  exists container' t s',
    renderValue fuel field container originFile component settings
      expandList context depth s
    = Done (container', t) s'.
Proof.
  intros Hf Hfuel.
  destruct (renderValue_returns originFile component settings fuel field
              container expandList context depth s Hf Hfuel)
    as (c' & t & s' & H & _).
  eauto.
Qed.

(** ** renderList and renderTable *)

Section ViewFacts.
Context {host : Host}.
Variables (originFile : string) (component : Component)
          (settings : QuerySettings).

Lemma enoughFuel_top : enoughFuel settings 0 <= enoughFuel settings 0.
Proof. apply Nat.le_refl. Qed.

(** *** The calls, whatever the values *)

Lemma detachAll_own ids ks :
  forallb isOwnElement ks = true ->
  forallb isOwnElement (detachAll ids ks) = true
  /\ List.length (detachAll ids ks) = List.length ks.
Proof.
  induction ks as [|k ks IH]; intro H; [auto|].
  simpl in H. apply andb_prop in H as [Hk Hks].
  destruct (IH Hks) as [IH1 IH2].
  destruct k as [d|t c kids|a]; try discriminate.
  cbn [detachAll]. rewrite detach_elem. simpl. rewrite IH1, IH2. auto.
Qed.

Lemma detachAll_rows ids ks :
  forallb isRowOfCells ks = true ->
  forallb isRowOfCells (detachAll ids ks) = true
  /\ map childCount (detachAll ids ks) = map childCount ks.
Proof.
  induction ks as [|k ks IH]; intro H; [auto|].
  simpl in H. apply andb_prop in H as [Hk Hks].
  destruct (IH Hks) as [IH1 IH2].
  destruct k as [d|t c kids|a]; try discriminate.
  cbn [detachAll]. rewrite detach_elem. simpl in *.
  destruct (detachAll_own ids kids Hk) as [Ho Hl].
  rewrite Ho, IH1, Hl, IH2. auto.
Qed.

Local Abbreviation cellCall context :=
  (fun (v : Literal) (t : CallTree) =>
     call_args t = mkInvocation v true context 0 /\ wellNested t = true).

(** The loop over the elements of a list view or over the values of a row
    ends; there is one call per item, and one element per item is added. *)
Lemma items_calls tag context items :
  forall el0 calls0 s,
    outcome_sat False
      (for_of items
         (fun v (acc : Element * list CallTree) =>
            let (el, calls) := acc in
            bind
              (renderValue (enoughFuel settings 0) v (createEl tag [])
                 originFile component settings true context 0)
              (fun r : Element * CallTree =>
                 let (cell, call) := r in
                 ret (attach el (node_of cell), calls ++ [call])))
         (el0, calls0) s)
      (fun acc s' =>
         sameValues (heap s) (heap s')
         /\ (exists ts,
                snd acc = calls0 ++ ts /\ Forall2 (cellCall context) items ts)
         /\ tagName (fst acc) = tagName el0
         /\ (forallb isOwnElement (childNodes el0) = true ->
             forallb isOwnElement (childNodes (fst acc)) = true
             /\ List.length (childNodes (fst acc))
                = List.length (childNodes el0) + List.length items))
      (fun s' => sameValues (heap s) (heap s')).
Proof.
  induction items as [|v items IH]; intros el0 calls0 s.
  - simpl. split; [apply sameValues_refl|]. split; [|split].
    + exists []. rewrite app_nil_r. split; [reflexivity | constructor].
    + reflexivity.
    + intro H. split; [exact H | lia].
  - simpl for_of. apply sat_bind. apply sat_bind.
    eapply sat_conseq;
      [ apply (renderValue_sat originFile component settings False
                 (enoughFuel settings 0) v (createEl tag []) true context 0
                 s (or_intror enoughFuel_top))
      | | auto ].
    intros [cell call] s1 (Hh & _ & Ha & Hw & _). simpl in Ha, Hw. simpl.
    eapply sat_conseq; [apply IH | | ].
    + intros [el' calls'] s2 (Hh2 & (ts & Hcalls & Hts) & Htag & Hshape).
      simpl in *. split; [exact (sameValues_trans _ _ _ Hh Hh2)|].
      split; [|split].
      * exists (call :: ts). rewrite Hcalls, <- app_assoc.
        split; [reflexivity|]. constructor; auto.
      * rewrite Htag, attach_nodes. reflexivity.
      * intro Hown. rewrite attach_nodes in Hshape. cbn [childNodes] in Hshape.
        destruct (detachAll_own (refs (node_of cell)) _ Hown) as [Ho Hl].
        destruct Hshape as [Hs1 Hs2].
        { rewrite forallb_app, Ho. reflexivity. }
        split; [exact Hs1|]. rewrite Hs2, length_app, Hl. simpl. lia.
    + intros s2 Hh2. exact (sameValues_trans _ _ _ Hh Hh2).
Qed.

Lemma renderList_calls container elements s :
  outcome_sat False
    (renderList container elements component originFile settings s)
    (fun r s' =>
       sameValues (heap s) (heap s')
       /\ Forall2 (cellCall CtxList) elements (snd r))
    (fun s' => sameValues (heap s) (heap s')).
Proof.
  unfold renderList. apply sat_bind.
  eapply sat_conseq; [apply (items_calls "li" CtxList) | | auto].
  intros [listEl calls] s' (Hh & (ts & Hcalls & Hts) & _).
  simpl in *. subst. split; [exact Hh | exact Hts].
Qed.

Lemma rows_calls values :
  forall tbody0 calls0 s,
    outcome_sat False
      (for_of values
         (fun row (acc : Element * list (list CallTree)) =>
            let (tbodyEl, calls) := acc in
            bind
              (for_of row
                 (fun v (acc : Element * list CallTree) =>
                    let (el, calls) := acc in
                    bind
                      (renderValue (enoughFuel settings 0) v
                         (createEl "td" []) originFile component settings
                         true CtxRoot 0)
                      (fun r : Element * CallTree =>
                         let (cell, call) := r in
                         ret (attach el (node_of cell), calls ++ [call])))
                 (createEl "tr" [], []))
              (fun r : Element * list CallTree =>
                 let (rowEl, rowCalls) := r in
                 ret (attach tbodyEl (node_of rowEl),
                      calls ++ [rowCalls])))
         (tbody0, calls0) s)
      (fun acc s' =>
         sameValues (heap s) (heap s')
         /\ (exists tss,
                snd acc = calls0 ++ tss
                /\ Forall2 (Forall2 (cellCall CtxRoot)) values tss)
         /\ (forallb isRowOfCells (childNodes tbody0) = true ->
             forallb isRowOfCells (childNodes (fst acc)) = true
             /\ map childCount (childNodes (fst acc))
                = map childCount (childNodes tbody0)
                  ++ map (@List.length Literal) values))
      (fun s' => sameValues (heap s) (heap s')).
Proof.
  induction values as [|row values IH]; intros tbody0 calls0 s.
  - simpl. split; [apply sameValues_refl|]. split.
    + exists []. rewrite app_nil_r. split; [reflexivity | constructor].
    + intro H. rewrite app_nil_r. auto.
  - simpl for_of. apply sat_bind. apply sat_bind.
    eapply sat_conseq; [apply (items_calls "td" CtxRoot) | | auto].
    intros [rowEl rowCalls] s1 (Hh & (ts & Hcalls & Hts) & _ & Hrow).
    simpl in Hcalls, Hrow. subst rowCalls. specialize (Hrow eq_refl).
    destruct Hrow as [Hown Hlen]. simpl in Hlen. simpl.
    eapply sat_conseq; [apply IH | | ].
    + intros [el' calls'] s2 (Hh2 & (tss & Hcalls' & Htss) & Hshape).
      simpl in *. split; [exact (sameValues_trans _ _ _ Hh Hh2)|]. split.
      * exists (ts :: tss). rewrite Hcalls', <- app_assoc.
        split; [reflexivity|]. constructor; auto.
      * intro Hrows. rewrite attach_nodes in Hshape.
        cbn [childNodes] in Hshape.
        destruct (detachAll_rows (refs (node_of rowEl)) _ Hrows)
          as [Hr Hm].
        destruct Hshape as [Hs1 Hs2].
        { rewrite forallb_app, Hr. simpl. rewrite Hown. reflexivity. }
        split; [exact Hs1|].
        rewrite Hs2, map_app, Hm, <- app_assoc. simpl. rewrite Hlen.
        reflexivity.
    + intros s2 Hh2. exact (sameValues_trans _ _ _ Hh Hh2).
Qed.

Local Abbreviation th_of :=
  (fun header => node_of (createElText "th" ["table-view-th"] header)).

Local Abbreviation tr_of :=
  (fun outs : list (list Node) => NElem "tr" [] (map (NElem "td" []) outs)).

Lemma header_cells headers :
  forall headerEl,
    fold_left (fun headerEl header => appendChild headerEl (th_of header))
      headers headerEl
    = appendNodes headerEl (map th_of headers).
Proof.
  induction headers as [|h headers IH]; intro headerEl.
  - simpl. rewrite appendNodes_nil. reflexivity.
  - simpl fold_left. rewrite IH, appendChild_nodes, appendNodes_app.
    reflexivity.
Qed.

Lemma th_own headers : forallb isOwnElement (map th_of headers) = true.
Proof.
  induction headers as [|h headers IH]; [reflexivity|]. simpl. exact IH.
Qed.

Lemma renderTable_calls container headers values s :
  outcome_sat False
    (renderTable container headers values component originFile settings s)
    (fun r s' =>
       sameValues (heap s) (heap s')
       /\ Forall2 (Forall2 (cellCall CtxRoot)) values (snd r)
       /\ exists table,
           fst r = attach container table
           /\ tableShape table
              = Some (List.length headers,
                      map (@List.length Literal) values))
    (fun s' => sameValues (heap s) (heap s')).
Proof.
  unfold renderTable. apply sat_bind.
  eapply sat_conseq; [apply rows_calls | | auto].
  intros [tbodyEl calls] s' (Hh & (tss & Hcalls & Htss) & Hshape).
  simpl in Hcalls, Hshape. subst calls. specialize (Hshape eq_refl).
  destruct Hshape as [_ Hrows]. simpl in Hrows. simpl.
  split; [exact Hh|]. split; [exact Htss|].
  eexists. split; [reflexivity|].
  rewrite header_cells, attach_nodes.
  unfold node_of, appendChild, appendNodes, createEl.
  cbn [tagName classList childNodes app detachAll].
  rewrite detach_elem. cbn [detachAll]. rewrite detach_elem.
  cbn [tableShape childCount].
  destruct (detachAll_own (refs (node_of tbodyEl)) (map th_of headers)
              (th_own headers)) as [_ Hl].
  unfold node_of in Hl. rewrite Hl, length_map, Hrows. reflexivity.
Qed.

(** *** The nodes, when no value is an HTML element *)

Local Abbreviation freeAt h :=
  (fun v : Literal =>
     htmlFree originFile component settings 0 h v = true).


Lemma topLevel_facts context v s out t s' :
  freeAt (heap s) v ->
  topLevel originFile component settings context v s out t s' ->
  heap s' = heap s
  /\ call_args t = mkInvocation v true context 0
  /\ wellNested t = true
  /\ deepest t <= S (maxRecursiveRenderDepth settings).
Proof.
  intros Hf H. specialize (H (createEl "" [])).
  pose proof (renderValue_sat originFile component settings True
                (enoughFuel settings 0) v (createEl "" []) true context 0 s
                (or_introl I)) as Hs.
  pose proof (renderValue_free originFile component settings
                (enoughFuel settings 0) v (createEl "" []) true context 0 s
                Hf) as Hfree.
  rewrite H in Hs, Hfree. destruct Hs as (_ & _ & Ha & Hw & Hd).
  destruct Hfree as [Hh _].
  simpl in *. repeat split; auto.
Qed.








(** *** No error *)

Local Abbreviation noThrow o s :=
  (outcome_sat True o (fun _ s' => sameValues (heap s) (heap s'))
     (fun _ => False)).

Local Abbreviation cleanAt h :=
  (fun v : Literal =>
     errorFree originFile component settings 0 h v = true).

Lemma cleanAt_same h h' v :
  sameValues h h' -> cleanAt h v -> cleanAt h' v.
Proof.
  intros Hs Hv. unfold errorFree in *.
  rewrite (errorFree_same originFile component settings h h' Hs). exact Hv.
Qed.

Lemma items_noThrow tag context items el0 calls0 s :
  Forall (cleanAt (heap s)) items ->
  noThrow
    (for_of items
       (fun v (acc : Element * list CallTree) =>
          let (el, calls) := acc in
          bind
            (renderValue (enoughFuel settings 0) v (createEl tag [])
               originFile component settings true context 0)
            (fun r : Element * CallTree =>
               let (cell, call) := r in
               ret (attach el (node_of cell), calls ++ [call])))
       (el0, calls0) s) s.
Proof.
  intro Hc.
  apply (for_of_noThrow (fun h v => cleanAt h v)); [| |exact Hc].
  - intros h h' v. apply cleanAt_same.
  - intros v [el calls] s1 Hv. apply sat_bind.
    eapply sat_conseq;
      [apply (renderValue_noThrow originFile component settings); exact Hv
      | | auto].
    intros [cell call] s2 Hs. exact Hs.
Qed.

Lemma renderList_noThrow container elements s :
  Forall (cleanAt (heap s)) elements ->
  noThrow (renderList container elements component originFile settings s) s.
Proof.
  intro Hc. unfold renderList. apply sat_bind.
  eapply sat_conseq; [apply (items_noThrow "li" CtxList); exact Hc | | auto].
  intros [listEl calls] s' Hs. exact Hs.
Qed.

Lemma renderTable_noThrow container headers values s :
  Forall (Forall (cleanAt (heap s))) values ->
  noThrow
    (renderTable container headers values component originFile settings s) s.
Proof.
  intro Hc. unfold renderTable. apply sat_bind.
  eapply sat_conseq;
    [ apply (for_of_noThrow (fun h row => Forall (cleanAt h) row));
      [| |exact Hc]
    | | auto ].
  - intros h h' row Hs Hrow. eapply Forall_impl; [|exact Hrow].
    intros v Hv. eapply cleanAt_same; eassumption.
  - intros row [tbodyEl calls] s1 Hrow. apply sat_bind.
    eapply sat_conseq;
      [apply (items_noThrow "td" CtxRoot); exact Hrow | | auto].
    intros [rowEl rowCalls] s2 Hs. exact Hs.
  - intros [tbodyEl calls] s' Hs. exact Hs.
Qed.

Lemma forallb_Forall {A : Type} (f : A -> bool) l :
  forallb f l = true <-> Forall (fun x => f x = true) l.
Proof. rewrite forallb_forall, Forall_forall. reflexivity. Qed.

Lemma forallb2_Forall {A : Type} (f : A -> bool) l :
  forallb (forallb f) l = true <-> Forall (Forall (fun x => f x = true)) l.
Proof.
  rewrite forallb_Forall. split; intro H; (eapply Forall_impl; [|exact H]);
    intros row Hrow; apply forallb_Forall; exact Hrow.
Qed.


Lemma CallTree_calls_ind (P : CallTree -> Prop) :
  (forall args calls, Forall P calls -> P (Call args calls)) ->
  forall t, P t.
Proof.
  intro H. fix IH 1. intros [args calls]. apply H.
  induction calls as [|c cs IHcs]; constructor; [apply IH | exact IHcs].
Qed.

Lemma wellNested_list_contexts :
  forall t,
    wellNested t = true ->
    inListContext (call_args t) && inv_expandList (call_args t) = true ->
    everyInvocation (fun a => inListContext a && inv_expandList a) t = true.
Proof.
  apply (CallTree_calls_ind
           (fun t =>
              wellNested t = true ->
              inListContext (call_args t) && inv_expandList (call_args t)
                = true ->
              everyInvocation (fun a => inListContext a && inv_expandList a)
                t = true)).
  intros args calls IH Hw Hroot. cbn [call_args] in Hroot.
  cbn [everyInvocation]. rewrite Hroot. cbn [andb].
  apply andb_prop in Hroot as [_ He].
  induction IH as [|c cs Hc _ IHcs]; [reflexivity|].
  cbn [wellNested] in Hw.
  apply andb_prop in Hw as [Hw Hrest].
  apply andb_prop in Hw as [Hw Hwc].
  apply andb_prop in Hw as [Hw Hexp].
  apply andb_prop in Hw as [Hctx _].
  apply eqb_prop in Hexp.
  rewrite Hc; [apply IHcs; exact Hrest | exact Hwc |].
  unfold inListContext. rewrite Hexp, He.
  destruct (inv_context (call_args c)); [discriminate | reflexivity].
Qed.

(** X7: every invocation of [renderValue] that [renderList] gives rise to,
    for the elements and for everything nested in them, has context ["list"]
    and [expandList = true]; there is one call tree per element.  So no
    value in a list view is rendered in inline mode or with the ["root"]
    context. *)
Theorem renderList_all_in_list_context container elements s :
  outcome_sat False
    (renderList container elements component originFile settings s)
    (fun r _ =>
       List.length (snd r) = List.length elements
       /\ Forall
            (fun t =>
               everyInvocation
                 (fun a => inListContext a && inv_expandList a) t = true)
            (snd r))
    (fun _ => True).
Proof.
  eapply sat_conseq; [apply renderList_calls | | auto].
  intros [c' calls] s' (_ & Hc). simpl in *.
  split; [symmetry; apply (Forall2_length Hc)|].
  induction Hc as [|v t vs ts [Ha Hw] _ IH]; constructor; [|exact IH].
  apply wellNested_list_contexts; [exact Hw|]. rewrite Ha. reflexivity.
Qed.


(** X9: the table that [renderTable] adds, as the last child of the
    container, has as many header cells as there are headers and, for each
    row, as many cells as the row has values: rows are neither padded nor
    cut to the number of headers. *)
Theorem renderTable_shape container headers values s :
  outcome_sat False
    (renderTable container headers values component originFile settings s)
    (fun r _ =>
       exists table,
         fst r = attach container table
         /\ tableShape table
            = Some (List.length headers,
                    map (@List.length Literal) values))
    (fun _ => True).
Proof.
  eapply sat_conseq; [apply renderTable_calls | | auto].
  intros [c' calls] s' (_ & _ & Ht). exact Ht.
Qed.

(** X10: the invocation of [renderValue] for each cell of a table has the
    cell's value, [expandList = true], context ["root"] and depth 0, and
    everything nested below it has context ["list"]; the call trees
    correspond to the values row by row. *)
Theorem renderTable_cells_at_root container headers values s :
  outcome_sat False
    (renderTable container headers values component originFile settings s)
    (fun r _ =>
       Forall2
         (Forall2
            (fun v t =>
               call_args t = mkInvocation v true CtxRoot 0
               /\ wellNested t = true))
         values (snd r))
    (fun _ => True).
Proof.
  eapply sat_conseq; [apply renderTable_calls | | auto].
  intros [c' calls] s' (_ & Hc & _). exact Hc.
Qed.

End ViewFacts.

(** X5: what a call of [renderValue] does on a value without HTML elements
    is the same for every container: its outcome, call tree and final state
    are those of the call on an empty element, and the nodes that element
    gets are added after the child nodes the container has; the tag, the
    classes and the child nodes of the container have no influence. *)
Theorem rendering_independent_of_container {host : Host}
    (originFile : string) (component : Component) (settings : QuerySettings)
    fuel field el expandList context depth s :
  htmlFree originFile component settings depth (heap s) field = true ->
  renderValue fuel field el originFile component settings expandList context
    depth s
  = into el
      (renderValue fuel field (createEl "" []) originFile component settings
         expandList context depth s).
Proof. apply renderValue_into. Qed.

(** X11: [renderList] and [renderTable] return when nothing stands in the
    way of their values: the markdown of each string, number, boolean, link
    and null does not render as a single child element with the first
    paragraph nested inside it, [JSON.stringify] does not throw, and no
    HTML element among the values is the container or holds it. *)
Theorem views_render_without_error {host : Host} (originFile : string)
    (component : Component) (settings : QuerySettings) container elements
    headers values s :
  forallb (errorFree originFile component settings 0 (heap s)) elements
    = true ->
  forallb (forallb (errorFree originFile component settings 0 (heap s)))
    values = true ->
  (exists c calls s',
      renderList container elements component originFile settings s
      = Done (c, calls) s')
  /\ (exists c calls s',
         renderTable container headers values component originFile settings s
         = Done (c, calls) s').
Proof.
  intros Hl Ht. apply forallb_Forall in Hl. apply forallb2_Forall in Ht.
  split.
  - pose proof (renderList_noThrow originFile component settings container
                  elements s Hl) as Hno.
    pose proof (renderList_calls originFile component settings container
                  elements s) as Hends.
    destruct (renderList container elements component originFile settings s)
      as [[c calls] s'|e s'|]; [eauto | contradiction | contradiction].
  - pose proof (renderTable_noThrow originFile component settings container
                  headers values s Ht) as Hno.
    pose proof (renderTable_calls originFile component settings container
                  headers values s) as Hends.
    destruct (renderTable container headers values component originFile
                settings s)
      as [[c calls] s'|e s'|]; [eauto | contradiction | contradiction].
Qed.

(** ** renderCodeBlock *)

Section CodeBlockFacts.

Lemma language_token_whitespace l :
  hasAsciiWhitespace ("language-" ++ l) = hasAsciiWhitespace l.
Proof. reflexivity. Qed.

(** X12: [renderCodeBlock] adds one [code] element with class [dataview]
    holding the source as its only text node, and returns it; it adds the
    class [language-] followed by the language exactly when a language is
    given and is not the empty string.  It throws only for a language that
    contains ASCII whitespace, and then [InvalidCharacterError]. *)
Theorem renderCodeBlock_outcome container source language :
  renderCodeBlock container source language
  = match language with
    | Some l =>
        if String.eqb l "" then
          inr (appendChild container (NElem "code" ["dataview"] [NText source]),
               mkElement "code" ["dataview"] [NText source])
        else if hasAsciiWhitespace l then inl InvalidCharacterError
        else
          inr (appendChild container
                 (NElem "code" ["dataview"; ("language-" ++ l)%string]
                    [NText source]),
               mkElement "code" ["dataview"; ("language-" ++ l)%string]
                 [NText source])
    | None =>
        inr (appendChild container (NElem "code" ["dataview"] [NText source]),
             mkElement "code" ["dataview"] [NText source])
    end.
Proof.
  unfold renderCodeBlock, truthy. destruct language as [l|]; [|reflexivity].
  destruct (String.eqb l "") eqn:He; [reflexivity|].
  cbn [negb]. unfold classList_add.
  rewrite language_token_whitespace.
  destruct (hasAsciiWhitespace l); reflexivity.
Qed.

End CodeBlockFacts.

(** ** The worker entry point: responses and settlement *)

Section WorkerFacts.
Variables (Metadata ParseResult TransferEncoding JSError : Type).
Variable runImport : string -> string -> Metadata -> JSError + ParseResult.
Variable transferable : ParseResult -> JSError + TransferEncoding.

Local Abbreviation onmessage :=
  (ImportEntry.onmessage Metadata ParseResult TransferEncoding JSError
     runImport transferable).

(** X13: the handler either posts exactly one message and its promise is
    fulfilled, or posts none and its promise is rejected; no job is answered
    twice, none is answered and rejected, and every message posted carries
    the path of the job. *)
Theorem onmessage_answers_or_rejects evt :
  (exists encoded,
      onmessage evt
      = ([ImportEntry.mkResult _ (ImportEntry.evt_path _ evt) encoded],
         ImportEntry.Fulfilled _))
  \/ (exists e, onmessage evt = ([], ImportEntry.Rejected _ e)).
Proof.
  unfold ImportEntry.onmessage.
  destruct (runImport _ _ _) as [e|r]; [right; eauto|].
  destruct (transferable r) as [e|encoded]; [right | left]; eauto.
Qed.

(** X14: an error raised by the encoder, after the parse routine has
    returned, is not caught either: no message is posted and the promise is
    rejected with that error. *)
Theorem onmessage_encode_error_unanswered evt r e :
  runImport (ImportEntry.evt_path _ evt) (ImportEntry.evt_contents _ evt)
            (ImportEntry.evt_metadata _ evt) = inr r ->
  transferable r = inl e ->
  onmessage evt = ([], ImportEntry.Rejected _ e).
Proof.
  intros Hr He. unfold ImportEntry.onmessage. rewrite Hr, He. reflexivity.
Qed.

End WorkerFacts.

(** ** renderErrorPre and renderErrorSpan *)

(** The two error blocks differ in the tag only. *)
Lemma error_blocks_differ_in_tag container error :
  renderErrorPre container error
  = (appendChild container
       (NElem "pre" ["dataview"; "dataview-error"] [NText error]),
     mkElement "pre" ["dataview"; "dataview-error"] [NText error])
  /\ renderErrorSpan container error
     = (appendChild container
          (NElem "span" ["dataview"; "dataview-error"] [NText error]),
        mkElement "span" ["dataview"; "dataview-error"] [NText error]).
Proof. split; reflexivity. Qed.


(** * The properties at concrete inputs *)

Import Example.

(** Inline mode, the empty array at address 0. *)
Lemma empty_array_rendering_witness :
  (heap state0 0 = ArrayCell [] \/ heap state0 0 = DataArrayCell [])
  /\ 0 <= maxRecursiveRenderDepth settings2
  /\ renderValue 1 (VRef 0) td origin comp0 settings2 false CtxRoot 0 state0
     = Done (appendText td "<empty list>",
             Call (mkInvocation (VRef 0) false CtxRoot 0) [])
            state0.
Proof.
  split; [left; reflexivity|]. split; [simpl; lia|].
  apply (empty_array_rendering origin comp0 settings2 0 0 td false CtxRoot 0
           state0); [left; reflexivity | simpl; lia].
Defined.

(** C1 fails in expand-list mode: the empty array at address 0 is rendered
    as an empty [ul] element, not as the text [<empty list>]. *)
Lemma empty_array_expand_no_placeholder :
  outputOf (renderValue 1 (VRef 0) td origin comp0 settings2 true CtxRoot 0
              state0)
  = Some (appendChild td
            (NElem "ul"
               ["dataview"; "dataview-ul"; "dataview-result-list-root-ul"]
               []))
  /\ outputOf (renderValue 1 (VRef 0) td origin comp0 settings2 true CtxRoot 0
                 state0)
     <> Some (appendText td "<empty list>").
Proof. split; [reflexivity | discriminate]. Qed.

(** C3 fails at depth [k]: with maximum 0, the call at depth 0 on the array
    [["a"]] (nested to depth 1) appends a span, not the placeholder, and
    makes a call at depth 1; that call is the one that truncates. *)
Lemma no_truncation_at_max_depth :
  outputOf (renderValue 2 (VRef 5) td origin comp0 settings0 false CtxRoot 0
              state0)
  <> Some (appendText td "...")
  /\ outputOf (renderValue 2 (VRef 5) td origin comp0 settings0 false CtxRoot
                 0 state0)
     = Some (appendChild td
               (NElem "span" ["dataview"; "dataview-result-list-span"]
                  [NText "..."]))
  /\ callsOf (renderValue 2 (VRef 5) td origin comp0 settings0 false CtxRoot 0
                state0)
     = Some (Call (mkInvocation (VRef 5) false CtxRoot 0)
               [Call (mkInvocation (VString "a") false CtxList 1) []]).
Proof. split; [discriminate | split; reflexivity]. Qed.

(** The array at address 2 contains itself; maximum depth 2. *)
Lemma depth_guard_witness :
  enoughFuel settings2 0 <= 4
  /\ outcome_sat False
       (renderValue 4 (VRef 2) td origin comp0 settings2 false CtxRoot 0
          state0)
       (fun r _ => deepest (snd r) <= Nat.max 0 3)
       (fun _ => True).
Proof.
  split; [vm_compute; lia|].
  apply (proj2 (depth_guard origin comp0 settings2 3 (VRef 2) td false
                  CtxRoot 0 state0)).
  vm_compute. lia.
Defined.

(** The cyclic array is rendered as three nested spans around the
    placeholder. *)
Example cyclic_array_rendered :
  outputOf (renderValueDefault (VRef 2) td origin comp0 settings2 state0)
  = Some (appendChild td
            (NElem "span" ["dataview"; "dataview-result-list-span"]
               [NElem "span" ["dataview"; "dataview-result-list-span"]
                  [NElem "span" ["dataview"; "dataview-result-list-span"]
                     [NText "..."]]])).
Proof. reflexivity. Qed.

(** The instance of [Task] at address 3, which refers to itself. *)
Lemma class_instance_not_traversed_witness :
  heap state0 3
    = ObjectCell (Some "Task") [("text", VString "x"); ("self", VRef 3)]
  /\ "Task" <> ""
  /\ "Task" <> "Object"
  /\ 0 <= maxRecursiveRenderDepth settings2
  /\ renderValue 1 (VRef 3) td origin comp0 settings2 true CtxRoot 0 state0
     = Done (appendText td "<Task>",
             Call (mkInvocation (VRef 3) true CtxRoot 0) [])
            state0.
Proof.
  split; [reflexivity|]. split; [discriminate|]. split; [discriminate|].
  split; [simpl; lia|].
  apply (class_instance_not_traversed origin comp0 settings2 0 3 "Task"
           [("text", VString "x"); ("self", VRef 3)] td true CtxRoot 0
           state0);
    [reflexivity | discriminate | discriminate | simpl; lia].
Defined.



(** In the array [["a", "> x", "c"]] at address 6 the second element does
    not render: ["a"] was rendered, for 30 units of time, then the render of
    ["> x"] threw after 3 more, and ["c"] was not rendered. *)
Example blockquote_among_siblings :
  renderValue 4 (VRef 6) td origin comp0 settings2 true CtxRoot 0 htmlState
  = Thrown NotFoundError (mkState htmlHeap (30 + 3)).
Proof. reflexivity. Qed.

(** The renderer stays suspended longest for ["a"] and shortest for ["b"];
    the list items are those of ["a"], ["b"], ["c"], in this order, and the
    clock shows that the three suspensions followed one another. *)
Example abc_rendered_in_order :
  renderValue 4 (VRef 1) td origin comp0 settings2 true CtxRoot 0
    state0
  = Done
      (appendChild td
         (NElem "ul"
            ["dataview"; "dataview-ul"; "dataview-result-list-root-ul"]
            [NElem "li" ["dataview-result-list-li"]
               [NElem "span" [] [NText "a"]];
             NElem "li" ["dataview-result-list-li"]
               [NElem "span" [] [NText "b"]];
             NElem "li" ["dataview-result-list-li"]
               [NElem "span" [] [NText "c"]]]),
       Call (mkInvocation (VRef 1) true CtxRoot 0)
         [Call (mkInvocation (VString "a") true CtxList 1) [];
          Call (mkInvocation (VString "b") true CtxList 1) [];
          Call (mkInvocation (VString "c") true CtxList 1) []])
      (mkState exampleHeap (30 + 10 + 1)).
Proof. reflexivity. Qed.



(** The render of the array [[div, em]] changes no array and no object of
    the heap, and leaves the HTML elements at their addresses. *)
Example array_of_elements_kept :
  match renderValue 4 (VRef 4) td origin comp0 settings2 true CtxRoot 0
          htmlState with
  | Done _ s' => sameValues (heap htmlState) (heap s')
  | _ => False
  end.
Proof.
  pose proof (renderValue_sat origin comp0 settings2 False 4 (VRef 4) td true
                CtxRoot 0 htmlState) as H.
  destruct (renderValue 4 (VRef 4) td origin comp0 settings2 true CtxRoot 0
              htmlState) as [r s'|e s'|] eqn:Hr.
  - apply H. right. vm_compute. lia.
  - vm_compute in Hr. discriminate Hr.
  - apply H. right. vm_compute. lia.
Qed.

(** [JSON.stringify] throws on a [BigInt], and with it the render. *)
Example bigint_render_throws :
  renderValue 1 (VForeign "10n") td origin comp0 settings2 false CtxRoot 0
    state0
  = Thrown TypeError state0.
Proof. reflexivity. Qed.

(** An element that holds the container cannot be rendered into it. *)
Example ancestor_render_throws :
  renderValue 1 (VRef 5) td origin comp0 settings2 false CtxRoot 0 htmlState
  = Thrown HierarchyRequestError htmlState.
Proof. reflexivity. Qed.

(** The array [[["a"]]] at address 4. *)
Lemma recursive_calls_nested_witness :
  enoughFuel settings2 0 <= 4
  /\ outcome_sat False
       (renderValue 4 (VRef 4) td origin comp0 settings2 true CtxRoot
          0 state0)
       (fun r _ =>
          call_args (snd r) = mkInvocation (VRef 4) true CtxRoot 0
          /\ wellNested (snd r) = true)
       (fun _ => True).
Proof.
  split; [vm_compute; lia|].
  apply (recursive_calls_nested origin comp0 settings2 4 (VRef 4) td
           true CtxRoot 0 state0).
  vm_compute. lia.
Defined.

(** The markdown ["> x"]: a block quote around a paragraph. *)
Lemma nested_paragraph_throws_witness :
  renderMarkdown "> x" origin comp0
    = [NElem "blockquote" [] [NElem "p" [] [NText "x"]]]
  /\ "blockquote" <> "p"
  /\ renderCompactMarkdown "> x" td origin comp0 state0
     = Thrown NotFoundError
         (mkState (heap state0) (clock state0 + renderLatency "> x")).
Proof.
  split; [reflexivity|]. split; [discriminate|].
  apply (nested_paragraph_throws origin comp0 "> x" td "blockquote"
           [] [] [NText "x"] state0); [reflexivity | discriminate].
Defined.

(** The string ["> x"] as a value. *)
Lemma string_render_throws_witness :
  renderMarkdown "> x" origin comp0
    = [NElem "blockquote" [] [NElem "p" [] [NText "x"]]]
  /\ "blockquote" <> "p"
  /\ 0 <= maxRecursiveRenderDepth settings2
  /\ renderValue 1 (VString "> x") td origin comp0 settings2 false
       CtxRoot 0 state0
     = Thrown NotFoundError
         (mkState (heap state0) (clock state0 + renderLatency "> x")).
Proof.
  split; [reflexivity|]. split; [discriminate|]. split; [simpl; lia|].
  apply (string_render_throws origin comp0 settings2 0 "> x" td
           "blockquote" [] [] [NText "x"] false CtxRoot 0 state0);
    [reflexivity | discriminate | simpl; lia].
Defined.

(** A job whose parse returns. *)
Lemma onmessage_posts_result_witness :
  countImport "a.md" "text" tt = inr 4
  /\ encodeNat 4 = inr 4
  /\ ImportEntry.onmessage unit nat nat string countImport encodeNat
       (ImportEntry.mkJob unit "a.md" "text" tt)
     = ([ImportEntry.mkResult nat "a.md" 4], ImportEntry.Fulfilled string).
Proof.
  split; [reflexivity|]. split; [reflexivity|].
  apply (onmessage_posts_result unit nat nat string countImport encodeNat
           (ImportEntry.mkJob unit "a.md" "text" tt) 4 4); reflexivity.
Defined.

(** A job whose parse throws. *)
Lemma onmessage_parse_error_unanswered_witness :
  failingImport "a.md" "text" tt = inl "parse error"%string
  /\ ImportEntry.onmessage unit nat nat string failingImport encodeNat
       (ImportEntry.mkJob unit "a.md" "text" tt)
     = ([], ImportEntry.Rejected string "parse error"%string).
Proof.
  split; [reflexivity|].
  apply (onmessage_parse_error_unanswered unit nat nat string failingImport
           encodeNat (ImportEntry.mkJob unit "a.md" "text" tt)
           "parse error"%string).
  reflexivity.
Defined.

(** C2 fails when the parse routine throws: no response message is sent,
    where the claim has exactly one. *)
Lemma parse_error_loses_response :
  ImportEntry.posted unit nat nat string failingImport encodeNat
    (ImportEntry.mkJob unit "a.md" "text" tt) = []
  /\ List.length
       (ImportEntry.posted unit nat nat string failingImport encodeNat
          (ImportEntry.mkJob unit "a.md" "text" tt)) <> 1.
Proof. split; [reflexivity | discriminate]. Qed.

(** The markdown ["a"]: one paragraph. *)
Lemma sole_paragraph_stripped_witness :
  renderMarkdown "a" origin comp0
    = [] ++ NElem "p" [] [NText "a"] :: []
  /\ forallb isTextNode [] = true
  /\ renderCompactMarkdown "a" td origin comp0 state0
     = Done (appendChild td (NElem "span" [] ([] ++ [] ++ [NText "a"])))
            (mkState (heap state0) (clock state0 + renderLatency "a")).
Proof.
  split; [reflexivity|]. split; [reflexivity|].
  apply (proj1 (sole_paragraph_stripped origin comp0 "a" td state0)
           [] [] [NText "a"] []); reflexivity.
Defined.

(** C6 fails for a block element that is not a paragraph: the heading that
    ["# T"] renders to is the only child element of the span and a single
    wrapping block element, and it is not unwrapped. *)
Lemma heading_not_unwrapped :
  renderMarkdown "# T" origin comp0 = [NElem "h1" [] [NText "T"]]
  /\ renderCompactMarkdown "# T" td origin comp0 state0
     = Done (appendChild td (NElem "span" [] [NElem "h1" [] [NText "T"]]))
            (mkState exampleHeap 3)
  /\ renderCompactMarkdown "# T" td origin comp0 state0
     <> Done (appendChild td (NElem "span" [] [NText "T"]))
             (mkState exampleHeap 3).
Proof. split; [reflexivity|]. split; [reflexivity | discriminate]. Qed.

(** An empty plain object, at address 7 of the example heap. *)
Lemma empty_object_rendering_witness :
  heap state0 7 = ObjectCell (Some "Object") []
  /\ isClassInstance (Some "Object") = false
  /\ 0 <= maxRecursiveRenderDepth settings2
  /\ renderValue 1 (VRef 7) td origin comp0 settings2 false CtxRoot 0 state0
     = Done (appendText td "<empty object>",
             Call (mkInvocation (VRef 7) false CtxRoot 0) [])
            state0.
Proof.
  split; [reflexivity|]. split; [reflexivity|]. split; [simpl; lia|].
  apply (empty_object_rendering origin comp0 settings2 0 7 (Some "Object")
           td false CtxRoot 0 state0);
    [reflexivity | reflexivity | simpl; lia].
Defined.

(** The object [{k: "a", l: "b"}] without a constructor, inline. *)
Lemma object_entries_in_order_witness :
  heap objectState 0
    = ObjectCell None [("k", VString "a"); ("l", VString "b")]
  /\ isClassInstance None = false
  /\ 0 <= maxRecursiveRenderDepth settings2
  /\ enoughFuel settings2 0 <= 4
  /\ htmlFree origin comp0 settings2 0 (heap objectState) (VRef 0) = true
  /\ match renderValue 4 (VRef 0) td origin comp0 settings2 false CtxRoot 0
            objectState with
     | Done r s' =>
         exists outs ts,
           siblings 3 origin comp0 settings2 false (0 + 1)
             (map snd [("k", VString "a"); ("l", VString "b")])
             objectState outs ts s'
           /\ snd r = Call (mkInvocation (VRef 0) false CtxRoot 0) ts
           /\ fst r
              = appendNodes td
                  [NElem "span" ["dataview"; "dataview-result-object-span"]
                     (joinNodes (NText ", ")
                        (keyedOuts
                           (map fst
                              [("k", VString "a"); ("l", VString "b")])
                           outs))]
     | Thrown e s' =>
         siblingsThrow 3 origin comp0 settings2 false (0 + 1)
           (map snd [("k", VString "a"); ("l", VString "b")])
           objectState e s'
     | OutOfFuel => False
     end.
Proof.
  split; [reflexivity|]. split; [reflexivity|]. split; [simpl; lia|].
  split; [vm_compute; lia|]. split; [reflexivity|].
  apply (object_entries_in_order origin comp0 settings2 3 0 None
           [("k", VString "a"); ("l", VString "b")] td false CtxRoot 0
           objectState);
    [reflexivity | reflexivity | simpl; lia | vm_compute; lia | reflexivity].
Defined.

(** The object as it is rendered inline and in a list. *)
Example object_rendered_inline :
  outputOf (renderValue 4 (VRef 0) td origin comp0 settings2 false CtxRoot 0
              objectState)
  = Some (appendChild td
            (NElem "span" ["dataview"; "dataview-result-object-span"]
               [NText "k: "; NElem "span" [] [NText "a"]; NText ", ";
                NText "l: "; NElem "span" [] [NText "b"]])).
Proof. reflexivity. Qed.

(** The array [[b, "a", b]] at address 1: nothing stands in the way of its
    elements. *)
Lemma renders_without_error_witness :
  errorFree origin comp0 settings2 0 (heap htmlState) (VRef 1) = true
  /\ enoughFuel settings2 0 <= 4
  /\ exists container' t s',
      renderValue 4 (VRef 1) td origin comp0 settings2 true CtxRoot 0
        htmlState
      = Done (container', t) s'.
Proof.
  split; [reflexivity|]. split; [vm_compute; lia|].
  apply (renders_without_error origin comp0 settings2 4 (VRef 1) td true
           CtxRoot 0 htmlState); [reflexivity | vm_compute; lia].
Defined.

(** The array at address 6 is not free of errors: ["> x"] is in it. *)
Example blockquote_not_error_free :
  errorFree origin comp0 settings2 0 (heap htmlState) (VRef 6) = false.
Proof. reflexivity. Qed.

(** A list view and a table of strings, a heading and the HTML element
    [b]. *)
Lemma views_render_without_error_witness :
  forallb (errorFree origin comp0 settings2 0 (heap htmlState))
    [VString "a"; VRef 0; VString "# T"] = true
  /\ forallb (forallb (errorFree origin comp0 settings2 0 (heap htmlState)))
       [[VString "a"; VRef 0]; []] = true
  /\ (exists c calls s',
         renderList td [VString "a"; VRef 0; VString "# T"] comp0 origin
           settings2 htmlState
         = Done (c, calls) s')
  /\ (exists c calls s',
         renderTable td ["A"; "B"] [[VString "a"; VRef 0]; []] comp0 origin
           settings2 htmlState
         = Done (c, calls) s').
Proof.
  split; [reflexivity|]. split; [reflexivity|].
  apply (views_render_without_error origin comp0 settings2 td
           [VString "a"; VRef 0; VString "# T"] ["A"; "B"]
           [[VString "a"; VRef 0]; []] htmlState); reflexivity.
Defined.

(** What a render of the array [["a"; "b"; "c"]] does, into a cell that has
    a text node already. *)
Lemma rendering_independent_of_container_witness :
  htmlFree origin comp0 settings2 0 (heap state0) (VRef 1) = true
  /\ renderValue 4 (VRef 1) (mkElement "td" ["x"] [NText "t"]) origin comp0
       settings2 true CtxRoot 0 state0
     = into (mkElement "td" ["x"] [NText "t"])
         (renderValue 4 (VRef 1) (createEl "" []) origin comp0 settings2 true
            CtxRoot 0 state0).
Proof.
  split; [reflexivity|].
  apply (rendering_independent_of_container origin comp0 settings2 4
           (VRef 1) (mkElement "td" ["x"] [NText "t"]) true CtxRoot 0 state0).
  reflexivity.
Defined.



(** A list view of the element [b] twice: the first list item is empty. *)
Example list_view_of_repeated_element :
  outputOf (renderList td [VRef 0; VRef 0] comp0 origin settings2 htmlState)
  = Some (appendChild td
            (NElem "ul" ["dataview"; "list-view-ul"]
               [NElem "li" [] []; NElem "li" [] [NHtml 0]])).
Proof. reflexivity. Qed.

(** A table in a container that holds the element [b], with [b] in a cell:
    the element is taken out of the container, and the table has the shape
    of its input all the same. *)
Example table_takes_element_from_container :
  outputOf
    (renderTable (mkElement "div" [] [NHtml 0; NText "t"]) ["A"]
       [[VRef 0; VRef 0]] comp0 origin settings2 htmlState)
  = Some (mkElement "div" []
            [NText "t";
             NElem "table" ["dataview"; "table-view-table"]
               [NElem "thead" ["table-view-thead"]
                  [NElem "tr" ["table-view-tr-header"]
                     [NElem "th" ["table-view-th"] [NText "A"]]];
                NElem "tbody" ["table-view-tbody"]
                  [NElem "tr" []
                     [NElem "td" [] []; NElem "td" [] [NHtml 0]]]]]).
Proof. reflexivity. Qed.

(** A list view of the string ["a"] and the empty array at address 0: the
    array, an element of the list, has the class of a nested list. *)
Example list_view_rendered :
  outputOf (renderList td [VString "a"; VRef 0] comp0 origin settings2 state0)
  = Some (appendChild td
            (NElem "ul" ["dataview"; "list-view-ul"]
               [NElem "li" [] [NElem "span" [] [NText "a"]];
                NElem "li" []
                  [NElem "ul"
                     ["dataview"; "dataview-ul"; "dataview-result-list-ul"]
                     []]])).
Proof. reflexivity. Qed.

(** A table with two headers, one of them empty, a row with one value and
    a row with three: in a cell, the array has the class of a root list. *)
Example table_view_rendered :
  outputOf
    (renderTable td ["File"; ""]
       [[VRef 0]; [VString "a"; VFunction; VBoolean true]]
       comp0 origin settings2 state0)
  = Some (appendChild td
            (NElem "table" ["dataview"; "table-view-table"]
               [NElem "thead" ["table-view-thead"]
                  [NElem "tr" ["table-view-tr-header"]
                     [NElem "th" ["table-view-th"] [NText "File"];
                      NElem "th" ["table-view-th"] []]];
                NElem "tbody" ["table-view-tbody"]
                  [NElem "tr" []
                     [NElem "td" []
                        [NElem "ul"
                           ["dataview"; "dataview-ul";
                            "dataview-result-list-root-ul"] []]];
                   NElem "tr" []
                     [NElem "td" [] [NElem "span" [] [NText "a"]];
                      NElem "td" [] [NText "<function>"];
                      NElem "td" [] [NElem "span" [] [NText "true"]]]]])).
Proof. reflexivity. Qed.

(** A code block in a language with a space in its name. *)
Example code_block_language_with_space :
  renderCodeBlock td "x" (Some "c sharp") = inl InvalidCharacterError.
Proof. reflexivity. Qed.

(** A job whose parse returns and whose encoding throws. *)
Lemma onmessage_encode_error_unanswered_witness :
  countImport "a.md" "text" tt = inr 4
  /\ failingEncode 4 = inl "not transferable"%string
  /\ ImportEntry.onmessage unit nat nat string countImport failingEncode
       (ImportEntry.mkJob unit "a.md" "text" tt)
     = ([], ImportEntry.Rejected string "not transferable"%string).
Proof.
  split; [reflexivity|]. split; [reflexivity|].
  apply (onmessage_encode_error_unanswered unit nat nat string countImport
           failingEncode (ImportEntry.mkJob unit "a.md" "text" tt) 4
           "not transferable"%string); reflexivity.
Defined.

